(** * Music Analyzer: a shallow embedding of [music_analyzer.py]

    The script is a Tk shell with two buttons around one function,
    [analyze_file], which decodes an audio file, asks the DSP library for a
    fixed set of features, draws them on one figure, saves the figure as a
    PNG and closes the window.

    The embedding keeps the script's shape: the numeric part (the frequency
    masks of the "Frequency balance" block, the path arithmetic of the output
    name) is written as executable functions; everything that touches the
    outside (console, file system, Tk, pyplot, the DSP library) is threaded
    through an explicit [World] by a state-and-exception monad.

    Floating point numbers are represented by rationals ([Q]); the
    properties proved below only use their order. *)

From Stdlib Require Import ZArith QArith Lqa Lia Bool Ascii String List.
From stdpp Require Import base option list strings gmap.
Import ListNotations.

Local Open Scope string_scope.
Local Open Scope list_scope.

(* ===================================================================== *)
(** ** Numbers *)
(* ===================================================================== *)

Module Num.

(** [x < y] and [x >= y] on floats, as numpy's elementwise comparisons. *)
Definition ltb (x y : Q) : bool :=
  (Qnum x * Zpos (Qden y) <? Qnum y * Zpos (Qden x))%Z.

Definition geb (x y : Q) : bool := negb (ltb x y).

Definition gtb (x y : Q) : bool := ltb y x.

End Num.

(* ===================================================================== *)
(** ** Arrays *)
(* ===================================================================== *)

(** A one-dimensional array, and a two-dimensional array as the list of its
    rows (axis 0 first, as numpy indexes it). *)
Abbreviation Vector := (list Q).
Abbreviation Matrix := (list (list Q)).

(** The complex output of the short-time Fourier transform: rows of
    (real, imaginary) pairs. *)
Abbreviation CMatrix := (list (list (Q * Q))).

(** File contents. *)
Abbreviation bytes := (list Byte.byte).

(** Python exceptions (instances of [Exception]): class name and message;
    [str(e)] is the message. *)
Record exn : Type := mkExn { exn_class : string; exn_msg : string }.

Inductive result (A : Type) : Type :=
| Ok (a : A)
| Raise (e : exn).
Arguments Ok {A} a.
Arguments Raise {A} e.

Module Np.

(** [a & b] on boolean arrays of one shape. *)
Definition band (a b : list bool) : list bool := zip_with andb a b.

(** [keep rows mask]: the rows whose mask entry is [True]. *)
Fixpoint keep {A} (rows : list A) (mask : list bool) : list A :=
  match rows, mask with
  | r :: rows', m :: mask' =>
      if m then r :: keep rows' mask' else keep rows' mask'
  | _, _ => []
  end.

(** [S[mask]] with a one-dimensional boolean mask: numpy selects along
    axis 0 and raises [IndexError] when the mask's length is not the
    number of rows. *)
Definition bool_index (S : Matrix) (mask : list bool) : result Matrix :=
  if (length mask =? length S)%nat then Ok (keep S mask)
  else Raise (mkExn "IndexError"
                "boolean index did not match indexed array along axis 0").

End Np.

(* ===================================================================== *)
(** ** The frequency axis and the three band masks *)
(* ===================================================================== *)

Module Bands.

(** The analysis frame length the DSP library uses when none is given. *)
Definition n_fft : nat := 2048.

(** Modelled from the spec: the DSP library's [fft_frequencies] is not part
    of the repository.  The spec describes the spectral bins as spanning
    [0 Hz, Nyquist] with a 0 Hz bin; the library documents them as the
    [1 + n_fft/2] values [k * sr / n_fft], [k = 0 .. n_fft/2]. *)
Definition fft_frequencies (sr : Z) : Vector :=
  map (fun k : nat => (inject_Z (Z.of_nat k * sr) / inject_Z (Z.of_nat n_fft))%Q)
      (seq 0 (S (n_fft / 2))).

(** [(freqs > 0) & (freqs < 150)] *)
Definition bass_mask (freqs : Vector) : list bool :=
  Np.band (map (fun f => Num.gtb f 0) freqs) (map (fun f => Num.ltb f 150) freqs).

(** [(freqs >= 150) & (freqs < 2000)] *)
Definition mid_mask (freqs : Vector) : list bool :=
  Np.band (map (fun f => Num.geb f 150) freqs) (map (fun f => Num.ltb f 2000) freqs).

(** [freqs >= 2000] *)
Definition treble_mask (freqs : Vector) : list bool :=
  map (fun f => Num.geb f 2000) freqs.

(** How many of the three masks select bin [k]. *)
Definition b2n (b : bool) : nat := if b then 1 else 0.

Definition bands_of_bin (freqs : Vector) (k : nat) : nat :=
  b2n (nth k (bass_mask freqs) false)
  + b2n (nth k (mid_mask freqs) false)
  + b2n (nth k (treble_mask freqs) false).

(** The same count for a frequency value. *)
Definition bands_of_freq (f : Q) : nat :=
  b2n (Num.gtb f 0 && Num.ltb f 150)
  + b2n (Num.geb f 150 && Num.ltb f 2000)
  + b2n (Num.geb f 2000).

End Bands.

(* ===================================================================== *)
(** ** Paths ([os.path] on POSIX names) *)
(* ===================================================================== *)

Module OsPath.

Definition sep : ascii := "/"%char.
Definition extsep : ascii := "."%char.

(** [s.rfind(c)]: the index of the last [c] in [s], or [-1]. *)
Fixpoint rfind_from (c : ascii) (s : string) (i last : Z) : Z :=
  match s with
  | EmptyString => last
  | String a s' =>
      rfind_from c s' (i + 1) (if Ascii.eqb a c then i else last)
  end.

Definition rfind (c : ascii) (s : string) : Z := rfind_from c s 0 (-1).

(** [s[:i]] and [s[i:]] for [0 <= i]. *)
Fixpoint take (n : nat) (s : string) : string :=
  match n, s with
  | S n', String a s' => String a (take n' s')
  | _, _ => EmptyString
  end.

Fixpoint drop (n : nat) (s : string) : string :=
  match n, s with
  | S n', String _ s' => drop n' s'
  | _, _ => s
  end.

(** [os.path.basename]: [i = p.rfind(sep) + 1; return p[i:]]. *)
Definition basename (p : string) : string :=
  let i := (rfind sep p + 1)%Z in
  drop (Z.to_nat i) p.

(** The loop of [genericpath._splitext] that skips leading dots: is there
    a character other than the dot in the given slice? *)
Fixpoint has_non_dot (s : string) : bool :=
  match s with
  | EmptyString => false
  | String a s' => if Ascii.eqb a extsep then has_non_dot s' else true
  end.

(** [os.path.splitext]. *)
Definition splitext (p : string) : string * string :=
  let sepIndex := rfind sep p in
  let dotIndex := rfind extsep p in
  if (sepIndex <? dotIndex)%Z then
    let filenameIndex := (sepIndex + 1)%Z in
    if has_non_dot (take (Z.to_nat (dotIndex - filenameIndex))
                         (drop (Z.to_nat filenameIndex) p))
    then (take (Z.to_nat dotIndex) p, drop (Z.to_nat dotIndex) p)
    else (p, EmptyString)
  else (p, EmptyString).

(** A relative name is resolved against the working directory. *)
Definition isabs (p : string) : bool :=
  match p with String a _ => Ascii.eqb a sep | EmptyString => false end.

Definition resolve (cwd p : string) : string :=
  if isabs p then p else cwd ++ "/" ++ p.

End OsPath.

(** [s in t] on strings. *)
Fixpoint str_contains (sub s : string) : bool :=
  String.prefix sub s
  || match s with
     | EmptyString => false
     | String _ s' => str_contains sub s'
     end.

(* ===================================================================== *)
(** ** The figure: what pyplot holds *)
(* ===================================================================== *)

(** The mappable returned by [specshow] and handed to [fig.colorbar]. *)
Record Img : Type := mkImg { img_data : Matrix; img_cmap : string }.

(** One rectangle of the container returned by [ax.bar]. *)
Record Rect : Type := mkRect { rect_x : Q; rect_width : Q; rect_height : Q }.

(** Keyword arguments that only style a call (colours, alignment, font
    size, colour map, axis kind), as name and value. *)
Abbreviation Kw := (list (string * string)).

(** The calls an axes object receives.  An axes is modelled by the sequence
    of calls made on it, in order; what they look like on screen is the
    plotting library's business. *)
Inductive AxCall : Type :=
| Waveshow (y : Vector) (sr : Z)
| Specshow (data : Matrix) (sr : Z) (kw : Kw)
| SetProps (title xlabel ylabel : option string) (no_ticks : bool)
| TitleColor (c : string)
| XLabelColor (c : string)
| YLabelColor (c : string)
| Text (x y : Q) (s : string) (kw : Kw)
| Plot (xs : option Vector) (ys : Vector) (kw : Kw)
| Bar (labels : list string) (heights : Vector) (colors : list string)
| LabelOuter
| SetFacecolor (c : string)
| SetXLabel (s : string)
| SetYLabel (s : string)
| Legend (labels : list string).

(** The calls the figure itself receives. *)
Inductive FigCall : Type :=
| Suptitle (s : string) (kw : Kw)
| Colorbar (img : Img) (ax : nat * nat) (kw : Kw).

Record Figure : Type := mkFigure {
  fig_number : nat;
  (** was the dark style already in force when the figure was created? *)
  fig_created_dark : bool;
  fig_size : Z * Z;
  fig_facecolor : string;
  fig_nrows : nat;
  fig_ncols : nat;
  (** the grid of axes, row-major: [ax[i, j]] is entry [i * ncols + j] *)
  fig_axes : list (list AxCall);
  fig_calls : list FigCall
}.

Module Fig.

Definition subplots (number : nat) (dark : bool) (nrows ncols : nat)
    (size : Z * Z) (facecolor : string) : Figure :=
  mkFigure number dark size facecolor nrows ncols
           (repeat [] (nrows * ncols)) [].

Definition in_grid (f : Figure) (i j : nat) : bool :=
  (i <? fig_nrows f)%nat && (j <? fig_ncols f)%nat.

Definition add_ax_call (i j : nat) (c : AxCall) (f : Figure) : Figure :=
  mkFigure (fig_number f) (fig_created_dark f) (fig_size f) (fig_facecolor f)
           (fig_nrows f) (fig_ncols f)
           (alter (fun log => log ++ [c]) (i * fig_ncols f + j)%nat (fig_axes f))
           (fig_calls f).

Definition add_fig_call (c : FigCall) (f : Figure) : Figure :=
  mkFigure (fig_number f) (fig_created_dark f) (fig_size f) (fig_facecolor f)
           (fig_nrows f) (fig_ncols f) (fig_axes f) (fig_calls f ++ [c]).

(** [ax.flat]: the grid positions in row-major order. *)
Definition flat (f : Figure) : list (nat * nat) :=
  flat_map (fun i => map (fun j => (i, j)) (seq 0 (fig_ncols f)))
           (seq 0 (fig_nrows f)).

(** Observations on a finished figure. *)
Definition is_artist (c : AxCall) : bool :=
  match c with
  | Waveshow _ _ | Specshow _ _ _ | Text _ _ _ _
  | Plot _ _ _ | Bar _ _ _ => true
  | _ => false
  end.

(** The title of a panel: the last one set, or the empty string. *)
Definition title_of (log : list AxCall) : string :=
  fold_left (fun t c => match c with SetProps (Some s) _ _ _ => s | _ => t end)
            log "".

Definition panel_titles (f : Figure) : list string := map title_of (fig_axes f).

(** A panel is drawn when something was plotted on it. *)
Definition panel_drawn (log : list AxCall) : bool := existsb is_artist log.

Definition grid_panels (f : Figure) : nat := length (fig_axes f).

Definition drawn_panels (f : Figure) : nat :=
  length (List.filter panel_drawn (fig_axes f)).

Definition is_colorbar (c : FigCall) : bool :=
  match c with Colorbar _ _ _ => true | _ => false end.

Definition colorbars (f : Figure) : nat :=
  length (List.filter is_colorbar (fig_calls f)).


End Fig.

(* ===================================================================== *)
(** ** The world the script runs in *)
(* ===================================================================== *)

(** The callbacks bound to the two buttons. *)
Inductive Command : Type := cmd_load_file | cmd_close_app.

Inductive Widget : Type :=
| Button (text : string) (command : Command) (style : Kw)
| FigureCanvas (fig : nat).

(** The Tk root window, [root]. *)
Record Tk : Type := mkTk {
  tk_alive : bool;        (* false once [destroy] has run *)
  tk_mainloop : bool;     (* false once [quit] has run *)
  tk_title : string;
  tk_geometry : string;
  tk_bg : string;
  tk_packed : list Widget
}.

(** The functions of the DSP library the script calls. *)
Inductive LibFn : Type :=
| fn_load | fn_waveshow | fn_stft | fn_amplitude_to_db | fn_specshow
| fn_beat_track | fn_mfcc | fn_chroma_stft | fn_zero_crossing_rate
| fn_onset_strength | fn_times_like | fn_fft_frequencies
| fn_spectral_centroid.

Record World : Type := mkWorld {
  console : list string;          (* the lines printed so far *)
  fs : gmap string bytes;         (* files, by absolute path *)
  cwd : string;                   (* the working directory *)
  root : Tk;                      (* the global window handle *)
  gcf : option Figure;            (* pyplot's current figure *)
  old_figs : list Figure;         (* earlier figures; none is ever closed *)
  rc_style : option string;       (* the style set by [plt.style.use] *)
  trace : list LibFn              (* DSP library calls made so far *)
}.

(** Calls into the plotting and GUI libraries, as the failure oracle sees
    them. *)
Inductive ExtCall : Type :=
| E_subplots
| E_style_use (s : string)
| E_fig (c : FigCall)
| E_ax (i j : nat) (c : AxCall)
| E_canvas_new
| E_canvas_draw
| E_canvas_pack
| E_savefig (path : string).

(** What the libraries compute.  None of it belongs to the repository, so
    it is a parameter of the model: every function may raise, and the
    plotting and GUI calls raise when [raises] says so. *)
Record Lib : Type := mkLib {
  librosa_load : gmap string bytes -> string -> result (Vector * Z);
  stft : Vector -> result CMatrix;
  np_abs : CMatrix -> Matrix;
  np_max : Matrix -> result Q;
  np_mean : Matrix -> Q;
  amplitude_to_db : (Matrix -> result Q) -> Matrix -> result Matrix;
  beat_track : Vector -> Z -> result (Q * Vector);
  mfcc : Vector -> Z -> nat -> result Matrix;
  chroma_stft : Vector -> Z -> result Matrix;
  zero_crossing_rate : Vector -> result Matrix;
  onset_strength : Vector -> Z -> result Vector;
  times_like_1d : Vector -> Z -> result Vector;
  times_like_2d : Matrix -> Z -> result Vector;
  spectral_centroid : Vector -> Z -> result Matrix;
  (** [format(x, '.2f')] *)
  format_2f : Q -> string;
  raises : World -> ExtCall -> option exn;
  (** the PNG that [savefig] writes for a figure under a style *)
  savefig_png : option string -> Figure -> bytes;
  (** what a failing [savefig] leaves at the path, if anything *)
  savefig_partial : World -> string -> option bytes
}.

Module W.

Definition set_console (c : list string) (w : World) : World :=
  mkWorld c (fs w) (cwd w) (root w) (gcf w) (old_figs w) (rc_style w) (trace w).

Definition set_fs (m : gmap string bytes) (w : World) : World :=
  mkWorld (console w) m (cwd w) (root w) (gcf w) (old_figs w) (rc_style w) (trace w).

Definition set_root (r : Tk) (w : World) : World :=
  mkWorld (console w) (fs w) (cwd w) r (gcf w) (old_figs w) (rc_style w) (trace w).

Definition set_gcf (f : Figure) (w : World) : World :=
  mkWorld (console w) (fs w) (cwd w) (root w) (Some f) (old_figs w) (rc_style w) (trace w).

(** A new figure becomes the current one; the previous one stays open. *)
Definition push_fig (f : Figure) (w : World) : World :=
  mkWorld (console w) (fs w) (cwd w) (root w) (Some f)
          (match gcf w with Some g => g :: old_figs w | None => old_figs w end)
          (rc_style w) (trace w).

Definition set_style (s : string) (w : World) : World :=
  mkWorld (console w) (fs w) (cwd w) (root w) (gcf w) (old_figs w) (Some s) (trace w).

Definition log (fn : LibFn) (w : World) : World :=
  mkWorld (console w) (fs w) (cwd w) (root w) (gcf w) (old_figs w) (rc_style w)
          (trace w ++ [fn]).

Definition n_figs (w : World) : nat :=
  length (old_figs w) + match gcf w with Some _ => 1 | None => 0 end.

(** The window is open and its event loop is running. *)
Definition idle (w : World) : bool := tk_alive (root w) && tk_mainloop (root w).

End W.

(* ===================================================================== *)
(** ** Statements: state and exceptions *)
(* ===================================================================== *)

(** A statement runs in a world and either returns a value or raises; the
    world it leaves behind is kept in both cases, as effects that happened
    before an exception stay. *)
Definition M (A : Type) : Type := World -> result A * World.

Definition ret {A} (a : A) : M A := fun w => (Ok a, w).

Definition bind {A B} (m : M A) (k : A -> M B) : M B :=
  fun w =>
    match m w with
    | (Ok a, w1) => k a w1
    | (Raise e, w1) => (Raise e, w1)
    end.

(** [try: m  except Exception as e: h e] *)
Definition try_except {A} (m : M A) (h : exn -> M A) : M A :=
  fun w =>
    match m w with
    | (Ok a, w1) => (Ok a, w1)
    | (Raise e, w1) => h e w1
    end.

(** A pure computation that may raise. *)
Definition lift {A} (r : result A) : M A := fun w => (r, w).

(** An effect that cannot fail. *)
Definition modify (f : World -> World) : M unit := fun w => (Ok tt, f w).

(** With these two instances a function body reads [x ← m; k] for
    [x = m; k] and [m;; k] for two statements in a row. *)
#[global] Instance M_ret : MRet M := @ret.
#[global] Instance M_bind : MBind M := fun A B k m => bind m k.

(** [for x in l: body x] *)
Fixpoint for_each {A} (l : list A) (body : A -> M unit) : M unit :=
  match l with
  | [] => ret tt
  | x :: l' => body x;; for_each l' body
  end.

Definition TclError : exn :=
  mkExn "TclError" "can't invoke command: application has been destroyed".

Definition NoFigure : exn := mkExn "RuntimeError" "no current figure".

Definition IndexError : exn := mkExn "IndexError" "index is out of bounds".

(** [print(s)] *)
Definition print (s : string) : M unit :=
  modify (fun w => W.set_console (console w ++ [s]) w).

(** [m[0]] *)
Definition row0 (m : Matrix) : result Vector :=
  match m with
  | r :: _ => Ok r
  | [] => Raise IndexError
  end.

Section Program.

Context (lib : Lib).

(** A call into the DSP library: logged, then its result or exception. *)
Definition librosa {A} (fn : LibFn) (r : result A) : M A :=
  fun w => (r, W.log fn w).

(** A call into the plotting or GUI library: it raises when the oracle
    says so and otherwise has the given effect. *)
Definition ext (c : ExtCall) (effect : World -> World) : M unit :=
  fun w =>
    match raises lib w c with
    | Some e => (Raise e, w)
    | None => (Ok tt, effect w)
    end.

(** [fig, ax = plt.subplots(nrows, ncols, figsize=..., facecolor=...)] *)
Definition plt_subplots (nrows ncols : nat) (size : Z * Z) (facecolor : string)
  : M unit :=
  fun w =>
    ext E_subplots
        (W.push_fig (Fig.subplots (S (W.n_figs w))
                       (match rc_style w with Some _ => true | None => false end)
                       nrows ncols size facecolor)) w.

(** [plt.style.use(s)] *)
Definition plt_style_use (s : string) : M unit :=
  ext (E_style_use s) (W.set_style s).

(** A method call on [fig].  The local [fig] is the object pyplot holds as
    its current figure from [plt.subplots] on. *)
Definition fig_call (c : FigCall) : M unit :=
  fun w =>
    match gcf w with
    | None => (Raise NoFigure, w)
    | Some f => ext (E_fig c) (W.set_gcf (Fig.add_fig_call c f)) w
    end.

(** A method call on [ax[i, j]]. *)
Definition ax_call (i j : nat) (c : AxCall) : M unit :=
  fun w =>
    match gcf w with
    | None => (Raise NoFigure, w)
    | Some f =>
        if Fig.in_grid f i j
        then ext (E_ax i j c) (W.set_gcf (Fig.add_ax_call i j c f)) w
        else (Raise IndexError, w)
    end.

(** [librosa.display.waveshow(y, sr=sr, ax=ax[i, j])] *)
Definition waveshow (y : Vector) (sr : Z) (i j : nat) : M unit :=
  librosa fn_waveshow (Ok tt);;
  ax_call i j (Waveshow y sr).

(** [img = librosa.display.specshow(data, sr=sr, ..., ax=ax[i, j], cmap=...)] *)
Definition specshow (data : Matrix) (sr : Z) (kw : Kw) (i j : nat) (cmap : string)
  : M Img :=
  librosa fn_specshow (Ok tt);;
  ax_call i j (Specshow data sr (kw ++ [("cmap", cmap)]));;
  ret (mkImg data cmap).

(** The three colour lines that follow most [set] calls. *)
Definition white_title (i j : nat) : M unit :=
  ax_call i j (TitleColor "white").

Definition white_xlabel (i j : nat) : M unit :=
  ax_call i j (XLabelColor "white").

Definition white_ylabel (i j : nat) : M unit :=
  ax_call i j (YLabelColor "white").

(** The rectangles [ax.bar] returns for categorical labels: centred on
    0, 1, 2, ... with the default width 0.8. *)
Fixpoint bar_rects (i : Z) (heights : Vector) : list Rect :=
  match heights with
  | [] => []
  | h :: hs =>
      mkRect (inject_Z i - (4 # 10))%Q (8 # 10)%Q h :: bar_rects (i + 1) hs
  end.

(** [bars = ax[i, j].bar(labels, heights, color=colors)] *)
Definition ax_bar (i j : nat) (labels : list string) (heights : Vector)
    (colors : list string) : M (list Rect) :=
  ax_call i j (Bar labels heights colors);;
  ret (bar_rects 0 heights).

(** [FigureCanvasTkAgg(fig, master=root)], [canvas.draw()] and
    [canvas.get_tk_widget().pack()]. *)
Definition need_root : M unit :=
  fun w => if tk_alive (root w) then (Ok tt, w) else (Raise TclError, w).

Definition canvas_new : M nat :=
  fun w =>
    match gcf w with
    | None => (Raise NoFigure, w)
    | Some f => (need_root;; ext E_canvas_new id;; ret (fig_number f)) w
    end.

Definition canvas_draw (canvas : nat) : M unit :=
  need_root;; ext E_canvas_draw id.

Definition pack_widget (x : Widget) (w : World) : World :=
  let r := root w in
  W.set_root (mkTk (tk_alive r) (tk_mainloop r) (tk_title r) (tk_geometry r)
                   (tk_bg r) (tk_packed r ++ [x])) w.

Definition canvas_pack (canvas : nat) : M unit :=
  need_root;; ext E_canvas_pack (pack_widget (FigureCanvas canvas)).

(** [plt.savefig(name, ...)]: the current figure is written under the
    name, resolved against the working directory; an existing file is
    replaced. *)
Definition plt_savefig (name : string) : M unit :=
  fun w =>
    match gcf w with
    | None => (Raise NoFigure, w)
    | Some f =>
        let path := OsPath.resolve (cwd w) name in
        match raises lib w (E_savefig path) with
        | Some e =>
            (Raise e,
             match savefig_partial lib w path with
             | Some b => W.set_fs (<[path := b]> (fs w)) w
             | None => w
             end)
        | None =>
            (Ok tt, W.set_fs (<[path := savefig_png lib (rc_style w) f]> (fs w)) w)
        end
    end.

(** [root.quit()] *)
Definition root_quit : M unit :=
  need_root;;
  modify (fun w =>
    let r := root w in
    W.set_root (mkTk (tk_alive r) false (tk_title r) (tk_geometry r)
                     (tk_bg r) (tk_packed r)) w).

(** [root.destroy()]: the window and everything packed in it goes. *)
Definition root_destroy : M unit :=
  need_root;;
  modify (fun w =>
    let r := root w in
    W.set_root (mkTk false false (tk_title r) (tk_geometry r) (tk_bg r) []) w).

(** [def close_app()] *)
Definition close_app : M unit :=
  root_quit;;
  root_destroy.

End Program.

(* ===================================================================== *)
(** ** [analyze_file], block by block *)
(* ===================================================================== *)

Section Analysis.

Context (lib : Lib).

(** [y, sr = librosa.load(file_path)] *)
Definition load (file_path : string) : M (Vector * Z) :=
  fun w =>
    librosa fn_load
      (librosa_load lib (fs w) (OsPath.resolve (cwd w) file_path)) w.

(** Create a figure with multiple subplots and a dark background; set the
    title of the figure to the name of the audio file. *)
Definition create_figure (file_path : string) : M string :=
  plt_subplots lib 5 2 (25, 14)%Z "#2E2E2E";;
  plt_style_use lib "dark_background";;
  let audio_file_name := OsPath.basename file_path in
  fig_call lib (Suptitle audio_file_name [("fontsize", "16"); ("color", "white")]);;
  ret audio_file_name.

(** Plot waveform *)
Definition plot_waveform (y : Vector) (sr : Z) : M unit :=
  waveshow lib y sr 0 0;;
  ax_call lib 0 0 (SetProps (Some "Waveform") (Some "Time (s)") (Some "Amplitude") false);;
  white_title lib 0 0;;
  white_xlabel lib 0 0;;
  white_ylabel lib 0 0.

(** Plot spectrogram *)
Definition plot_spectrogram (y : Vector) (sr : Z) : M unit :=
  c ← librosa fn_stft (stft lib y);
  D ← librosa fn_amplitude_to_db (amplitude_to_db lib (np_max lib) (np_abs lib c));
  img ← specshow lib D sr [("x_axis", "time"); ("y_axis", "log")] 0 1 "magma";
  ax_call lib 0 1 (SetProps (Some "Spectrogram") (Some "Time (s)") (Some "Frequency (Hz)") false);;
  white_title lib 0 1;;
  white_xlabel lib 0 1;;
  white_ylabel lib 0 1;;
  fig_call lib (Colorbar img (0, 1)%nat [("format", "%+2.0f dB")]).

(** Calculate and display tempo *)
Definition plot_tempo (y : Vector) (sr : Z) : M unit :=
  '(tempo, _) ← librosa fn_beat_track (beat_track lib y sr);
  ax_call lib 1 0
    (Text (1 # 2) (1 # 2) ("Tempo: " ++ format_2f lib tempo ++ " BPM")
          [("horizontalalignment", "center"); ("verticalalignment", "center");
           ("fontsize", "15"); ("color", "white")]);;
  ax_call lib 1 0 (SetProps (Some "Tempo") None None true);;
  white_title lib 1 0.

(** Plot MFCCs *)
Definition plot_mfcc (y : Vector) (sr : Z) : M unit :=
  mfccs ← librosa fn_mfcc (mfcc lib y sr 13);
  img ← specshow lib mfccs sr [("x_axis", "time")] 1 1 "magma";
  ax_call lib 1 1 (SetProps (Some "MFCC") (Some "Time (s)") (Some "MFCC Coefficients") false);;
  white_title lib 1 1;;
  white_xlabel lib 1 1;;
  white_ylabel lib 1 1;;
  fig_call lib (Colorbar img (1, 1)%nat []).

(** Plot chroma feature *)
Definition plot_chroma (y : Vector) (sr : Z) : M unit :=
  chroma ← librosa fn_chroma_stft (chroma_stft lib y sr);
  img ← specshow lib chroma sr [("x_axis", "time"); ("y_axis", "chroma")] 2 0 "magma";
  ax_call lib 2 0 (SetProps (Some "Chroma Feature") (Some "Time (s)") None false);;
  white_title lib 2 0;;
  white_xlabel lib 2 0;;
  white_ylabel lib 2 0;;
  fig_call lib (Colorbar img (2, 0)%nat []).

(** Plot zero crossing rate *)
Definition plot_zcr (y : Vector) : M unit :=
  zcr ← librosa fn_zero_crossing_rate (zero_crossing_rate lib y);
  zcr0 ← lift (row0 zcr);
  ax_call lib 2 1 (Plot None zcr0 [("color", "cyan")]);;
  ax_call lib 2 1 (SetProps (Some "Zero Crossing Rate") (Some "Frames") (Some "Rate") false);;
  white_title lib 2 1;;
  white_xlabel lib 2 1;;
  white_ylabel lib 2 1.

(** Noise and distortion detection *)
Definition plot_onset (y : Vector) (sr : Z) : M unit :=
  onset_env ← librosa fn_onset_strength (onset_strength lib y sr);
  times ← librosa fn_times_like (times_like_1d lib onset_env sr);
  ax_call lib 3 0 (Plot (Some times) onset_env
                        [("label", "Onset strength"); ("color", "white")]);;
  ax_call lib 3 0 (SetProps (Some "Noise and Distortion Detection")
                            (Some "Time (s)") (Some "Onset Strength") false);;
  white_title lib 3 0;;
  white_xlabel lib 3 0;;
  white_ylabel lib 3 0.

(** [np.mean(librosa.amplitude_to_db(S[mask], ref=np.max))] *)
Definition band_level (S : Matrix) (mask : list bool) : M Q :=
  rows ← lift (Np.bool_index S mask);
  db ← librosa fn_amplitude_to_db (amplitude_to_db lib (np_max lib) rows);
  ret (np_mean lib db).

(** The body of the [for bar, label in zip(bars, ...)] loop; the three
    lines that set the panel's title and colours sit inside it. *)
Definition label_bar (bl : Rect * string) : M unit :=
  let '(bar, label) := bl in
  ax_call lib 3 1
    (Text (rect_x bar + rect_width bar / 2)%Q (rect_height bar + 1)%Q label
          [("ha", "center"); ("va", "bottom"); ("color", "white")]);;
  ax_call lib 3 1 (SetProps (Some "Frequency Balance") None (Some "Amplitude (dB)") false);;
  white_title lib 3 1;;
  white_ylabel lib 3 1.

(** Frequency balance *)
Definition plot_frequency_balance (y : Vector) (sr : Z) : M unit :=
  c ← librosa fn_stft (stft lib y);
  let S := np_abs lib c in
  freqs ← librosa fn_fft_frequencies (Ok (Bands.fft_frequencies sr));
  bass ← band_level S (Bands.bass_mask freqs);
  mid ← band_level S (Bands.mid_mask freqs);
  treble ← band_level S (Bands.treble_mask freqs);
  bars ← ax_bar lib 3 1 ["Bass"; "Midrange"; "Treble"] [bass; mid; treble]
                ["blue"; "green"; "red"];
  for_each (zip bars ["Bass"; "Midrange"; "Treble"]) label_bar.

(** Timbre analysis *)
Definition plot_timbre (y : Vector) (sr : Z) : M unit :=
  centroid ← librosa fn_spectral_centroid (spectral_centroid lib y sr);
  times ← librosa fn_times_like (times_like_2d lib centroid 22050);
  c0 ← lift (row0 centroid);
  ax_call lib 4 0 (Plot (Some times) c0 [("color", "white")]);;
  ax_call lib 4 0 (SetProps (Some "Spectral Centroid (Timbre)") (Some "Time (s)") (Some "Hz") false);;
  white_title lib 4 0;;
  white_xlabel lib 4 0;;
  white_ylabel lib 4 0.

(** Display the plots in the GUI *)
Definition style_axes (ij : nat * nat) : M unit :=
  ax_call lib ij.1 ij.2 LabelOuter;;
  ax_call lib ij.1 ij.2 (SetFacecolor "#2E2E2E").

Definition ax_flat : M (list (nat * nat)) :=
  fun w =>
    match gcf w with
    | None => (Raise NoFigure, w)
    | Some f => (Ok (Fig.flat f), w)
    end.

Definition display_in_gui : M unit :=
  axes ← ax_flat;
  for_each axes style_axes;;
  canvas ← canvas_new lib;
  canvas_draw lib canvas;;
  canvas_pack lib canvas.

(** Remove the 'Time (s)' label from all plots except the last one in each
    column; add labels and a legend to the Zero Crossing Rate plot. *)
Definition clear_xlabels (i : nat) : M unit :=
  ax_call lib i 0 (SetXLabel "");;
  ax_call lib i 1 (SetXLabel "").

Definition fix_labels : M unit :=
  for_each (seq 0 4) clear_xlabels;;
  ax_call lib 2 1 (SetYLabel "Rate");;
  ax_call lib 2 1 (SetXLabel "Frames");;
  ax_call lib 2 1 (Legend ["Zero Crossing Rate"]).

Definition output_name (audio_file_name : string) : string :=
  (OsPath.splitext audio_file_name).1 ++ ".png".

Definition completion_message : string :=
  "Analysis complete. The plot has been saved as 'music_analysis_plot.png'.".

(** Save the figure as an image file, report, close. *)
Definition save_and_close (audio_file_name : string) : M unit :=
  let output_file := output_name audio_file_name in
  plt_savefig lib output_file;;
  print completion_message;;
  close_app.

(** Everything up to the saving: the figure is built. *)
Definition draw_figure (file_path : string) (y : Vector) (sr : Z) : M string :=
  audio_file_name ← create_figure file_path;
  plot_waveform y sr;;
  plot_spectrogram y sr;;
  plot_tempo y sr;;
  plot_mfcc y sr;;
  plot_chroma y sr;;
  plot_zcr y;;
  plot_onset y sr;;
  plot_frequency_balance y sr;;
  plot_timbre y sr;;
  display_in_gui;;
  fix_labels;;
  ret audio_file_name.

(** The body of the second [try]. *)
Definition analysis (file_path : string) (y : Vector) (sr : Z) : M unit :=
  audio_file_name ← draw_figure file_path y sr;
  save_and_close audio_file_name.

(** [def analyze_file(file_path)] *)
Definition analyze_file (file_path : string) : M unit :=
  loaded ← try_except
             (ysr ← load file_path; ret (Some ysr))
             (fun e => print ("Error loading file: " ++ exn_msg e);; ret None);
  match loaded with
  | None => ret tt
  | Some (y, sr) =>
      try_except (analysis file_path y sr)
                 (fun e => print ("Error analyzing file: " ++ exn_msg e))
  end.

(** [def load_file()]; [answer] is what [filedialog.askopenfilename()]
    returned: the chosen path, or the empty string when the dialog was
    cancelled. *)
Definition load_file (answer : string) : M unit :=
  if String.eqb answer "" then ret tt else analyze_file answer.

(* ------------------------------------------------------------------- *)
(** *** The shell *)

Definition button_style : Kw :=
  [("bg", "#444444"); ("fg", "white");
   ("activebackground", "#555555"); ("activeforeground", "white")].

(** The module-level set-up: the window and its two buttons. *)
Definition launch (files : gmap string bytes) (dir : string) : World :=
  mkWorld [] files dir
    (mkTk true true "Music Analyzer" "1200x1000" "#2E2E2E"
       [Button "Load Music File" cmd_load_file button_style;
        Button "Exit" cmd_close_app button_style])
    None [] None [].

(** What the user does: press "Load Music File" and answer the dialog, or
    press "Exit". *)
Inductive Event : Type :=
| ClickLoad (answer : string)
| ClickExit.

Definition callback (ev : Event) : M unit :=
  match ev with
  | ClickLoad answer => load_file answer
  | ClickExit => close_app
  end.

(** [root.mainloop()] dispatches a click while the window is open and the
    loop runs; afterwards the script has ended. *)
Definition step (w : World) (ev : Event) : World :=
  if W.idle w then (callback ev w).2 else w.

Definition mainloop (evs : list Event) (w : World) : World :=
  fold_left step evs w.

(** How a call of [analyze_file] ended. *)
Inductive Outcome : Type :=
| DecodeFailed (e : exn)
| AnalysisFailed (e : exn)
| Succeeded.

Definition outcome (file_path : string) (w : World) : Outcome :=
  match load file_path w with
  | (Raise e, _) => DecodeFailed e
  | (Ok (y, sr), w1) =>
      match analysis file_path y sr w1 with
      | (Raise e, _) => AnalysisFailed e
      | (Ok _, _) => Succeeded
      end
  end.

End Analysis.

(* ===================================================================== *)
(** ** A small library instance, to run the script on *)
(* ===================================================================== *)

Module Demo.

Definition FileNotFound : exn := mkExn "FileNotFoundError" "No such file or directory".
Definition NoBackend : exn := mkExn "NoBackendError" "unsupported format".
Definition EmptyMax : exn :=
  mkExn "ValueError" "zero-size array to reduction operation maximum which has no identity".

Definition qmax (a b : Q) : Q := if Num.ltb a b then b else a.

Definition max_of (m : Matrix) : result Q :=
  match concat m with
  | [] => Raise EmptyMax
  | x :: xs => Ok (fold_left qmax xs x)
  end.

Definition mean_of (m : Matrix) : Q :=
  let xs := concat m in
  (fold_left Qplus xs 0 / inject_Z (Z.of_nat (length xs)))%Q.

(** A decoder that accepts any non-empty file and yields four samples at
    the library's default rate. *)
Definition decode (files : gmap string bytes) (path : string) : result (Vector * Z) :=
  match files !! path with
  | None => Raise FileNotFound
  | Some [] => Raise NoBackend
  | Some (_ :: _) => Ok ([0; 1; 0; -(1)]%Q, 22050%Z)
  end.

(** One frame whose magnitude at bin [k] is [k + 1]. *)
Definition spectrum : CMatrix :=
  map (fun k : nat => [(inject_Z (Z.of_nat (S k)), 0%Q)]) (seq 0 1025).

Definition png (style : option string) (f : Figure) : bytes :=
  [Byte.x89; Byte.x50; Byte.x4e; Byte.x47]
  ++ repeat Byte.x01 (Fig.drawn_panels f).

Definition lib (raise_at : World -> ExtCall -> option exn) : Lib :=
  {| librosa_load := decode;
     stft := fun _ => Ok spectrum;
     np_abs := map (map fst);
     np_max := max_of;
     np_mean := mean_of;
     amplitude_to_db := fun ref m =>
       match ref m with
       | Ok r => Ok (map (map (fun x => x - r)%Q) m)
       | Raise e => Raise e
       end;
     beat_track := fun _ _ => Ok (120%Q, []);
     mfcc := fun _ _ n => Ok (repeat [0%Q] n);
     chroma_stft := fun _ _ => Ok (repeat [0%Q] 12);
     zero_crossing_rate := fun _ => Ok [[1 # 2]%Q];
     onset_strength := fun _ _ => Ok [0%Q];
     times_like_1d := fun v _ => Ok (map (fun _ => 0%Q) v);
     times_like_2d := fun _ _ => Ok [0%Q];
     spectral_centroid := fun _ _ => Ok [[440%Q]];
     format_2f := fun _ => "120.00";
     raises := raise_at;
     savefig_png := png;
     savefig_partial := fun _ _ => None |}.

(** Nothing fails. *)
Definition good : Lib := lib (fun _ _ => None).

(** The disk is full when the figure is saved. *)
Definition disk_full : Lib :=
  lib (fun _ c => match c with
                  | E_savefig _ => Some (mkExn "OSError" "No space left on device")
                  | _ => None
                  end).

(** The canvas cannot be created. *)
Definition no_canvas : Lib :=
  lib (fun _ c => match c with
                  | E_canvas_new => Some (mkExn "TclError" "no display name")
                  | _ => None
                  end).

Definition song : bytes := [Byte.x52; Byte.x49; Byte.x46; Byte.x46].

Definition files : gmap string bytes :=
  <["/music/song.mp3" := song]> (<["/music/empty.wav" := []]> ∅).

Definition start : World := launch files "/home/user".

(** The working directory already holds a plot of the song, from before. *)
Definition old_plot : bytes := [Byte.x00].

Definition start_again : World :=
  launch (<["/home/user/song.png" := old_plot]> files) "/home/user".

End Demo.

(* ===================================================================== *)
(** ** Vocabulary for the properties *)
(* ===================================================================== *)

(** What can be seen from outside the process: the console, the files, the
    working directory, and whether the window is open and dispatching. *)
Definition shell (w : World)
  : list string * gmap string bytes * string * bool * bool :=
  (console w, fs w, cwd w, tk_alive (root w), tk_mainloop (root w)).

(** The console and the window alone. *)
Definition front (w : World) : list string * Tk := (console w, root w).

(** Does a name have a directory part? *)
Fixpoint has_sep (s : string) : bool :=
  match s with
  | EmptyString => false
  | String a s' => Ascii.eqb a OsPath.sep || has_sep s'
  end.

(** Does a character occur in a string? *)
Fixpoint has_char (c : ascii) (s : string) : bool :=
  match s with
  | EmptyString => false
  | String a s' => Ascii.eqb a c || has_char c s'
  end.

(** How often the completion message stands on a console. *)
Definition completions (lines : list string) : nat :=
  length (List.filter (String.eqb completion_message) lines).

(** The window is either open with its loop running, or destroyed with its
    loop stopped and nothing packed in it. *)
Definition open_or_gone (w : World) : Prop :=
  W.idle w = true
  \/ (tk_alive (root w) = false /\ tk_mainloop (root w) = false
      /\ tk_packed (root w) = []).

(** The window after [close_app]. *)
Definition closed (r : Tk) : Tk :=
  mkTk false false (tk_title r) (tk_geometry r) (tk_bg r) [].

(** A statement keeps an observation when it leaves it as it found it,
    whether it returns or raises. *)
Definition keeps {X A : Type} (obs : World -> X) (m : M A) : Prop :=
  forall w, obs (m w).2 = obs w.


(** The library calls of a complete run, in order, after the decoding. *)
Definition calls_of_a_run : list LibFn :=
  [fn_waveshow; fn_stft; fn_amplitude_to_db; fn_specshow;
   fn_beat_track; fn_mfcc; fn_specshow; fn_chroma_stft; fn_specshow;
   fn_zero_crossing_rate; fn_onset_strength; fn_times_like; fn_stft;
   fn_fft_frequencies; fn_amplitude_to_db; fn_amplitude_to_db;
   fn_amplitude_to_db; fn_spectral_centroid; fn_times_like].

(** A statement makes the library calls [L], in that order, when it returns,
    and a first part of them when it raises. *)
Definition calls {A : Type} (m : M A) (L : list LibFn) : Prop :=
  forall w,
    match m w with
    | (Ok _, w') => trace w' = trace w ++ L
    | (Raise _, w') => exists l, l `prefix_of` L /\ trace w' = trace w ++ l
    end.

(** From one world to a later one no figure was closed: there are at least
    as many, and those that were no longer current are all still there. *)
Definition no_figure_closed (w w' : World) : Prop :=
  (W.n_figs w <= W.n_figs w')%nat /\ old_figs w `suffix_of` old_figs w'.

(** A statement that closes no figure, however it ends. *)
Definition leaves_figures {A : Type} (m : M A) : Prop :=
  forall w, no_figure_closed w (m w).2.

(** What a statement can see of the world besides the files, the console
    and the record of library calls: the working directory, the window and
    pyplot's state. *)
Definition view (w : World)
  : string * Tk * option Figure * list Figure * option string :=
  (cwd w, root w, gcf w, old_figs w, rc_style w).

(** A library whose plotting and GUI calls fail or succeed whatever the
    files, the console and the record of calls hold. *)
Definition steady (lib : Lib) : Prop :=
  forall w w' c, view w = view w' -> raises lib w c = raises lib w' c.

(** A statement whose result and whose view afterwards depend on the view
    alone. *)
Definition by_view {A : Type} (m : M A) : Prop :=
  forall w1 w2,
    view w1 = view w2 -> (m w1).1 = (m w2).1 /\ view (m w1).2 = view (m w2).2.






(** The titles of the grid's panels after a complete run, row by row. *)
Definition titles_of_a_run : list string :=
  ["Waveform"; "Spectrogram"; "Tempo"; "MFCC"; "Chroma Feature";
   "Zero Crossing Rate"; "Noise and Distortion Detection";
   "Frequency Balance"; "Spectral Centroid (Timbre)"; ""].

(* ===================================================================== *)
(** * Properties *)
(* ===================================================================== *)

(** ** The band masks *)

Module NumFacts.

Lemma ltb_spec x y : Num.ltb x y = true <-> (x < y)%Q.
Proof. unfold Num.ltb, Qlt. apply Z.ltb_lt. Qed.

Lemma ltb_false x y : Num.ltb x y = false <-> (y <= x)%Q.
Proof. unfold Num.ltb, Qle. apply Z.ltb_ge. Qed.

Lemma geb_spec x y : Num.geb x y = true <-> (y <= x)%Q.
Proof. unfold Num.geb. rewrite negb_true_iff. apply ltb_false. Qed.

Lemma ltb_reflect x y : reflect (x < y)%Q (Num.ltb x y).
Proof.
  destruct (Num.ltb x y) eqn:E; constructor.
  - now apply ltb_spec.
  - apply ltb_false in E. lra.
Qed.

End NumFacts.

Module BandFacts.
Import Bands.

(** A frequency above 0 Hz lies in exactly one band; 0 Hz and anything
    below lie in none. *)
Lemma bands_of_freq_count (f : Q) :
  bands_of_freq f = b2n (Num.gtb f 0).
Proof.
  unfold bands_of_freq, Num.gtb, Num.geb.
  destruct (NumFacts.ltb_reflect 0 f), (NumFacts.ltb_reflect f 150),
           (NumFacts.ltb_reflect f 2000); simpl; try reflexivity; lra.
Qed.

Lemma nth_band (a b : list bool) (k : nat) :
  length a = length b ->
  nth k (Np.band a b) false = nth k a false && nth k b false.
Proof.
  unfold Np.band. revert b k.
  induction a as [|x a IH]; intros [|y b] k Hlen; simpl in *; try discriminate.
  - now destruct k.
  - destruct k; [reflexivity|]. apply IH. congruence.
Qed.

Lemma nth_map_in {A B} (g : A -> B) (l : list A) (k : nat) (d : B) (d' : A) :
  (k < length l)%nat -> nth k (map g l) d = g (nth k l d').
Proof.
  revert k. induction l as [|x l IH]; intros k Hk; simpl in *; [lia|].
  destruct k; [reflexivity|]. apply IH. lia.
Qed.

(** The masks are computed bin by bin. *)
Lemma bands_of_bin_freq (freqs : Vector) (k : nat) :
  (k < length freqs)%nat ->
  bands_of_bin freqs k = bands_of_freq (nth k freqs 0%Q).
Proof.
  intros Hk. unfold bands_of_bin, bands_of_freq, bass_mask, mid_mask, treble_mask.
  rewrite !nth_band by now rewrite !length_map.
  now rewrite !(nth_map_in _ _ _ false 0%Q) by assumption.
Qed.

Lemma length_fft_frequencies sr : length (fft_frequencies sr) = 1025%nat.
Proof. unfold fft_frequencies. now rewrite length_map, length_seq. Qed.

Lemma nth_fft_frequencies sr k :
  (k < 1025)%nat ->
  nth k (fft_frequencies sr) 0%Q
  = (inject_Z (Z.of_nat k * sr) / inject_Z (Z.of_nat n_fft))%Q.
Proof.
  intros Hk. unfold fft_frequencies.
  rewrite (nth_map_in _ _ _ _ 0%nat) by (rewrite length_seq; exact Hk).
  rewrite seq_nth by exact Hk. reflexivity.
Qed.

Lemma bin_positive sr k :
  Num.gtb (inject_Z (Z.of_nat k * sr) / inject_Z (Z.of_nat n_fft))%Q 0
  = (0 <? Z.of_nat k * sr)%Z.
Proof.
  unfold Num.gtb, Num.ltb, Qdiv.
  change (/ inject_Z (Z.of_nat n_fft))%Q with (1 # 2048)%Q.
  cbn. f_equal; lia.
Qed.

End BandFacts.

(** C1 (as stated, refuted): at the library's default rate of 22050 Hz the
    first spectral bin is the 0 Hz bin, the bass mask [(freqs > 0) & (freqs <
    150)] leaves it out, and so do the other two masks: this bin falls into
    none of the three bands instead of exactly one. *)
Lemma C1_zero_bin_in_no_band :
  let freqs := Bands.fft_frequencies 22050 in
  (nth 0 freqs 1 == 0)%Q
  /\ nth 0 (Bands.bass_mask freqs) true = false
  /\ Bands.bands_of_bin freqs 0 <> 1%nat.
Proof.
  repeat split; vm_compute; congruence.
Qed.

(** C1 (amended): for every positive sample rate, bin [k] of the frequency
    axis is selected by the bass mask exactly when its frequency lies in the
    open range (0, 150), by the mid mask exactly when it lies in
    [150, 2000), by the treble mask exactly when it is at least 2000; every
    bin other than the 0 Hz bin is selected by exactly one of the three masks,
    and the 0 Hz bin by none. *)
Theorem C1_bands_partition_positive_bins (sr : Z) (k : nat) :
  (0 < sr)%Z ->
  (k < length (Bands.fft_frequencies sr))%nat ->
  let freqs := Bands.fft_frequencies sr in
  let f := nth k freqs 0%Q in
  (nth k (Bands.bass_mask freqs) false = true <-> (0 < f /\ f < 150)%Q)
  /\ (nth k (Bands.mid_mask freqs) false = true <-> (150 <= f /\ f < 2000)%Q)
  /\ (nth k (Bands.treble_mask freqs) false = true <-> (2000 <= f)%Q)
  /\ Bands.bands_of_bin freqs k = (if (k =? 0)%nat then 0 else 1)%nat.
Proof.
  intros Hsr Hk freqs f.
  assert (Hlen : (k < 1025)%nat) by now rewrite BandFacts.length_fft_frequencies in Hk.
  unfold Bands.bass_mask, Bands.mid_mask, Bands.treble_mask.
  rewrite !BandFacts.nth_band by now rewrite !length_map.
  rewrite !(BandFacts.nth_map_in _ _ _ false 0%Q) by exact Hk.
  fold f. unfold Num.gtb.
  rewrite !andb_true_iff, !NumFacts.ltb_spec, !NumFacts.geb_spec.
  repeat split; try tauto.
  rewrite BandFacts.bands_of_bin_freq by exact Hk.
  rewrite BandFacts.bands_of_freq_count.
  subst f freqs. rewrite BandFacts.nth_fft_frequencies by exact Hlen.
  rewrite BandFacts.bin_positive.
  destruct k as [|k]; simpl Nat.eqb; cbv iota.
  - reflexivity.
  - replace (0 <? Z.of_nat (S k) * sr)%Z with true; [reflexivity|].
    symmetry. apply Z.ltb_lt. nia.
Qed.

Lemma C1_bands_partition_witness :
  (0 < 22050)%Z
  /\ (14 < length (Bands.fft_frequencies 22050))%nat
  /\ Bands.bands_of_bin (Bands.fft_frequencies 22050) 14 = 1%nat.
Proof.
  split; [lia|]. split; [vm_compute; lia|].
  refine (proj2 (proj2 (proj2 (C1_bands_partition_positive_bins 22050 14 _ _)))).
  - lia.
  - vm_compute; lia.
Defined.

(* ===================================================================== *)
(** ** Statements: what a return and what a raise tell *)
(* ===================================================================== *)

Lemma bind_Ok {A B} (m : M A) (k : A -> M B) w b w' :
  (m ≫= k) w = (Ok b, w') ->
  exists a w1, m w = (Ok a, w1) /\ k a w1 = (Ok b, w').
Proof.
  unfold mbind, M_bind, bind. destruct (m w) as [[a|e] w1]; intros H.
  - exists a, w1. auto.
  - discriminate.
Qed.

Lemma bind_Raise {A B} (m : M A) (k : A -> M B) w e w' :
  (m ≫= k) w = (Raise e, w') ->
  m w = (Raise e, w')
  \/ exists a w1, m w = (Ok a, w1) /\ k a w1 = (Raise e, w').
Proof.
  unfold mbind, M_bind, bind. destruct (m w) as [[a|e1] w1]; intros H.
  - right. exists a, w1. auto.
  - left. now inversion H.
Qed.

Lemma ret_Ok {A} (a b : A) w w' : ret a w = (Ok b, w') -> b = a /\ w' = w.
Proof. unfold ret. intros H. now inversion H. Qed.

Lemma librosa_Ok {A} fn (r : result A) w a w' :
  librosa fn r w = (Ok a, w') -> r = Ok a /\ w' = W.log fn w.
Proof. unfold librosa. intros H. now inversion H. Qed.

Lemma lift_Ok {A} (r : result A) w a w' :
  lift r w = (Ok a, w') -> r = Ok a /\ w' = w.
Proof. unfold lift. intros H. now inversion H. Qed.

Lemma modify_Ok f w u w' : modify f w = (Ok u, w') -> w' = f w.
Proof. unfold modify. intros H. now inversion H. Qed.

Lemma ext_Ok lib c eff w u w' : ext lib c eff w = (Ok u, w') -> w' = eff w.
Proof. unfold ext. destruct (raises lib w c); intros H; now inversion H. Qed.

Lemma need_root_Ok w u w' :
  need_root w = (Ok u, w') -> tk_alive (root w) = true /\ w' = w.
Proof.
  unfold need_root. destruct (tk_alive (root w)); intros H; now inversion H.
Qed.

Lemma ax_call_Ok lib i j c w u w' :
  ax_call lib i j c w = (Ok u, w') ->
  exists f, gcf w = Some f /\ Fig.in_grid f i j = true
            /\ w' = W.set_gcf (Fig.add_ax_call i j c f) w.
Proof.
  unfold ax_call. destruct (gcf w) as [f|]; [|discriminate].
  destruct (Fig.in_grid f i j) eqn:E; [|discriminate].
  intros H. apply ext_Ok in H. exists f. auto.
Qed.

Lemma fig_call_Ok lib c w u w' :
  fig_call lib c w = (Ok u, w') ->
  exists f, gcf w = Some f /\ w' = W.set_gcf (Fig.add_fig_call c f) w.
Proof.
  unfold fig_call. destruct (gcf w) as [f|]; [|discriminate].
  intros H. apply ext_Ok in H. exists f. auto.
Qed.

Lemma ax_flat_Ok w l w' :
  ax_flat w = (Ok l, w') -> exists f, gcf w = Some f /\ l = Fig.flat f /\ w' = w.
Proof.
  unfold ax_flat. destruct (gcf w) as [f|]; [|discriminate].
  intros H. inversion H. exists f. auto.
Qed.

Lemma canvas_new_Ok lib w n w' :
  canvas_new lib w = (Ok n, w') ->
  exists f, gcf w = Some f /\ tk_alive (root w) = true
            /\ n = fig_number f /\ w' = w.
Proof.
  unfold canvas_new. destruct (gcf w) as [f|]; [|discriminate].
  intros H. apply bind_Ok in H. destruct H as (u & w1 & H1 & H).
  apply need_root_Ok in H1. destruct H1 as [Ha ->].
  apply bind_Ok in H. destruct H as (u' & w2 & H1 & H).
  apply ext_Ok in H1. subst w2. apply ret_Ok in H. destruct H as [-> ->].
  exists f. auto.
Qed.

(* ===================================================================== *)
(** ** What the drawing leaves alone *)
(* ===================================================================== *)

Section Keeps.

Context {X : Type} (obs : World -> X).

Lemma keeps_ret {A} (a : A) : keeps obs (ret a).
Proof. intros w. reflexivity. Qed.

Lemma keeps_bind {A B} (m : M A) (k : A -> M B) :
  keeps obs m -> (forall a, keeps obs (k a)) -> keeps obs (m ≫= k).
Proof.
  intros Hm Hk w. unfold mbind, M_bind, bind.
  specialize (Hm w). destruct (m w) as [[a|e] w1]; simpl in *.
  - now rewrite Hk.
  - exact Hm.
Qed.

Lemma keeps_lift {A} (r : result A) : keeps obs (lift r).
Proof. intros w. reflexivity. Qed.

Lemma keeps_for_each {A} (l : list A) (body : A -> M unit) :
  (forall x, keeps obs (body x)) -> keeps obs (for_each l body).
Proof.
  intros Hb. induction l as [|x l IH]; simpl.
  - apply keeps_ret.
  - apply keeps_bind; auto.
Qed.

Lemma keeps_modify f :
  (forall w, obs (f w) = obs w) -> keeps obs (modify f).
Proof. intros Hf w. apply Hf. Qed.

Lemma keeps_ext lib c eff :
  (forall w, obs (eff w) = obs w) -> keeps obs (ext lib c eff).
Proof.
  intros Hf w. unfold ext. destruct (raises lib w c); simpl; auto.
Qed.

Lemma keeps_need_root : keeps obs need_root.
Proof. intros w. unfold need_root. now destruct (tk_alive (root w)). Qed.

(** The observation does not look at the trace, at pyplot's state, or at
    what is packed in the window. *)
Hypothesis obs_log : forall fn w, obs (W.log fn w) = obs w.
Hypothesis obs_gcf : forall f w, obs (W.set_gcf f w) = obs w.
Hypothesis obs_push : forall f w, obs (W.push_fig f w) = obs w.
Hypothesis obs_style : forall s w, obs (W.set_style s w) = obs w.

Lemma keeps_librosa {A} fn (r : result A) : keeps obs (librosa fn r).
Proof. intros w. apply obs_log. Qed.

Lemma keeps_ax_call lib i j c : keeps obs (ax_call lib i j c).
Proof.
  intros w. unfold ax_call. destruct (gcf w) as [f|]; [|reflexivity].
  destruct (Fig.in_grid f i j); [|reflexivity].
  now apply keeps_ext.
Qed.

Lemma keeps_fig_call lib c : keeps obs (fig_call lib c).
Proof.
  intros w. unfold fig_call. destruct (gcf w) as [f|]; [|reflexivity].
  now apply keeps_ext.
Qed.

Lemma keeps_subplots lib nrows ncols size color :
  keeps obs (plt_subplots lib nrows ncols size color).
Proof. intros w. unfold plt_subplots. now apply keeps_ext. Qed.

Lemma keeps_style_use lib s : keeps obs (plt_style_use lib s).
Proof. now apply keeps_ext. Qed.

Lemma keeps_ax_flat : keeps obs ax_flat.
Proof. intros w. unfold ax_flat. now destruct (gcf w). Qed.

Lemma keeps_canvas_new lib : keeps obs (canvas_new lib).
Proof.
  intros w. unfold canvas_new. destruct (gcf w) as [f|]; [|reflexivity].
  apply keeps_bind; [apply keeps_need_root|intros _].
  apply keeps_bind; [now apply keeps_ext|intros _]. apply keeps_ret.
Qed.

Lemma keeps_canvas_draw lib n : keeps obs (canvas_draw lib n).
Proof.
  apply keeps_bind; [apply keeps_need_root|intros _]. now apply keeps_ext.
Qed.

Hypothesis obs_pack : forall x w, obs (pack_widget x w) = obs w.

Lemma keeps_canvas_pack lib n : keeps obs (canvas_pack lib n).
Proof.
  apply keeps_bind; [apply keeps_need_root|intros _]. now apply keeps_ext.
Qed.

Ltac keeps_step :=
  first
    [ apply keeps_ret | apply keeps_lift | apply keeps_librosa
    | apply keeps_ax_call | apply keeps_fig_call | apply keeps_subplots
    | apply keeps_style_use | apply keeps_ax_flat | apply keeps_canvas_new
    | apply keeps_canvas_draw | apply keeps_canvas_pack
    | apply keeps_for_each; intros
    | apply keeps_bind; [|intros]
    | match goal with |- keeps _ (let '(_, _) := ?p in _) => destruct p end ].

Lemma keeps_waveshow lib y sr i j : keeps obs (waveshow lib y sr i j).
Proof. unfold waveshow. repeat keeps_step. Qed.

Lemma keeps_specshow lib d sr kw i j cmap :
  keeps obs (specshow lib d sr kw i j cmap).
Proof. unfold specshow. repeat keeps_step. Qed.

Lemma keeps_band_level lib S mask : keeps obs (band_level lib S mask).
Proof. unfold band_level. repeat keeps_step. Qed.

Lemma keeps_label_bar lib bl : keeps obs (label_bar lib bl).
Proof.
  destruct bl. unfold label_bar, white_title, white_ylabel. repeat keeps_step.
Qed.

Lemma keeps_draw_figure lib p y sr : keeps obs (draw_figure lib p y sr).
Proof.
  unfold draw_figure, create_figure, plot_waveform, plot_spectrogram,
    plot_tempo, plot_mfcc, plot_chroma, plot_zcr, plot_onset,
    plot_frequency_balance, plot_timbre, display_in_gui, fix_labels,
    style_axes, clear_xlabels, ax_bar,
    white_title, white_xlabel, white_ylabel.
  repeat first
    [ apply keeps_waveshow | apply keeps_specshow | apply keeps_band_level
    | apply keeps_label_bar | keeps_step ].
Qed.

End Keeps.

(** The drawing changes neither the console, nor the files, nor the working
    directory, and it leaves the window open if it was. *)
Lemma draw_figure_keeps_shell lib p y sr : keeps shell (draw_figure lib p y sr).
Proof. apply keeps_draw_figure; reflexivity. Qed.

(* ===================================================================== *)
(** ** Running the drawing to its end *)
(* ===================================================================== *)

(** The primitives on a world written out field by field. *)
Section Canonical.

Context (lib : Lib).
Variables (c0 : list string) (m0 : gmap string bytes) (d0 : string) (r0 : Tk)
          (o0 : list Figure) (s0 : option string) (t0 : list LibFn).

Lemma librosa_canon {A} fn (r : result A) g0 a w' :
  librosa fn r (mkWorld c0 m0 d0 r0 g0 o0 s0 t0) = (Ok a, w') ->
  r = Ok a /\ w' = mkWorld c0 m0 d0 r0 g0 o0 s0 (t0 ++ [fn]).
Proof. intros H. now apply librosa_Ok in H. Qed.

Lemma ax_call_canon i j c F u w' :
  ax_call lib i j c (mkWorld c0 m0 d0 r0 (Some F) o0 s0 t0) = (Ok u, w') ->
  w' = mkWorld c0 m0 d0 r0 (Some (Fig.add_ax_call i j c F)) o0 s0 t0.
Proof.
  intros H. apply ax_call_Ok in H. destruct H as (f & Hg & _ & ->).
  cbn in Hg. now injection Hg as <-.
Qed.

Lemma fig_call_canon c F u w' :
  fig_call lib c (mkWorld c0 m0 d0 r0 (Some F) o0 s0 t0) = (Ok u, w') ->
  w' = mkWorld c0 m0 d0 r0 (Some (Fig.add_fig_call c F)) o0 s0 t0.
Proof.
  intros H. apply fig_call_Ok in H. destruct H as (f & Hg & ->).
  cbn in Hg. now injection Hg as <-.
Qed.

Lemma ax_flat_canon F l w' :
  ax_flat (mkWorld c0 m0 d0 r0 (Some F) o0 s0 t0) = (Ok l, w') ->
  l = Fig.flat F /\ w' = mkWorld c0 m0 d0 r0 (Some F) o0 s0 t0.
Proof.
  intros H. apply ax_flat_Ok in H. destruct H as (f & Hg & -> & ->).
  cbn in Hg. now injection Hg as <-.
Qed.

Lemma canvas_new_canon F n w' :
  canvas_new lib (mkWorld c0 m0 d0 r0 (Some F) o0 s0 t0) = (Ok n, w') ->
  n = fig_number F /\ w' = mkWorld c0 m0 d0 r0 (Some F) o0 s0 t0.
Proof.
  intros H. apply canvas_new_Ok in H. destruct H as (f & Hg & _ & -> & ->).
  cbn in Hg. now injection Hg as <-.
Qed.

End Canonical.

(** [run H] follows a statement that returned, [H : m w = (Ok a, w')], step
    by step: it replaces [w'] by the world the statement built and leaves
    one equation per library result. *)
Ltac world_norm H :=
  lazy beta iota zeta delta
    [W.set_gcf W.log W.push_fig W.set_style W.set_root W.set_console W.set_fs
     W.n_figs pack_widget id
     console fs cwd root gcf old_figs rc_style trace] in H.

Ltac out_world H := lazymatch type of H with _ = (_, ?w') => w' end.
Ltac out_val H := lazymatch type of H with _ = (Ok ?a, _) => a end.

Lemma for_each_nil {A} (body : A -> M unit) : for_each [] body = ret tt.
Proof. reflexivity. Qed.

Lemma for_each_cons {A} (x : A) l (body : A -> M unit) :
  for_each (x :: l) body = (body x;; for_each l body).
Proof. reflexivity. Qed.

(** The blocks of the drawing are unfolded first, while the world is still
    small; [run] itself only meets primitives. *)
Ltac unfold_blocks H :=
  unfold draw_figure, create_figure, plot_waveform, plot_spectrogram,
    plot_tempo, plot_mfcc, plot_chroma, plot_zcr, plot_onset,
    plot_frequency_balance, plot_timbre, display_in_gui, fix_labels,
    style_axes, clear_xlabels, label_bar, band_level, ax_bar,
    waveshow, specshow, white_title, white_xlabel, white_ylabel,
    canvas_draw, canvas_pack, plt_subplots, plt_style_use in H.

Ltac run H :=
  lazymatch type of H with
  | (?m ≫= ?k) ?w = (Ok _, _) =>
      let a := fresh "a" in let w1 := fresh "w" in let H1 := fresh "H" in
      apply bind_Ok in H; destruct H as (a & w1 & H1 & H);
      run H1; cbv beta in H; run H
  | ret _ _ = (Ok _, _) =>
      let a := out_val H in let w' := out_world H in
      apply ret_Ok in H; destruct H as [? ?]; subst a; subst w'
  | librosa _ (Ok _) _ = (Ok _, _) =>
      let E := fresh "E" in let w' := out_world H in
      apply librosa_canon in H; destruct H as [E ?]; injection E as <-; subst w'
  | librosa _ _ _ = (Ok _, _) =>
      let E := fresh "E" in let w' := out_world H in
      apply librosa_canon in H; destruct H as [E ?]; subst w'
  | lift _ _ = (Ok _, _) =>
      let E := fresh "E" in let w' := out_world H in
      apply lift_Ok in H; destruct H as [E ?]; subst w'
  | modify _ _ = (Ok _, _) =>
      let w' := out_world H in
      apply modify_Ok in H; world_norm H; subst w'
  | ext _ _ _ _ = (Ok _, _) =>
      let w' := out_world H in
      apply ext_Ok in H; world_norm H; subst w'
  | need_root _ = (Ok _, _) =>
      let E := fresh "Halive" in let w' := out_world H in
      apply need_root_Ok in H; destruct H as [E ?]; world_norm E; subst w'
  | ax_call _ _ _ _ _ = (Ok _, _) =>
      let w' := out_world H in
      apply ax_call_canon in H; subst w'
  | fig_call _ _ _ = (Ok _, _) =>
      let w' := out_world H in
      apply fig_call_canon in H; subst w'
  | ax_flat _ = (Ok _, _) =>
      let a := out_val H in let w' := out_world H in
      apply ax_flat_canon in H; destruct H as [? ?]; subst a; subst w'
  | canvas_new _ _ = (Ok _, _) =>
      let a := out_val H in let w' := out_world H in
      apply canvas_new_canon in H; destruct H as [? ?]; subst a; subst w'
  | for_each (_ :: _) _ _ = (Ok _, _) =>
      rewrite for_each_cons in H; run H
  | for_each [] _ _ = (Ok _, _) =>
      rewrite for_each_nil in H; run H
  | for_each ?l ?b ?w = (Ok _, _) =>
      let l' := eval lazy in l in
      change (for_each l b w) with (for_each l' b w) in H; run H
  | (let '(_, _) := ?p in _) _ = (Ok _, _) =>
      first [ is_var p; destruct p | cbv beta iota in H ]; run H
  | _ = (Ok _, _) =>
      progress cbv beta iota in H; run H
  end.

(** Two runs of one library call gave one result. *)
Ltac same_results :=
  repeat match goal with
         | E1 : ?r = Ok _, E2 : ?r = Ok _ |- _ =>
             rewrite E1 in E2; inversion E2; subst; clear E2
         end.

(** What a drawing that returned has done. *)
Lemma draw_figure_Ok lib p y sr w n w' :
  draw_figure lib p y sr w = (Ok n, w') ->
  n = OsPath.basename p
  /\ rc_style w' = Some "dark_background"
  /\ trace w' = trace w ++ calls_of_a_run
  /\ W.n_figs w' = S (W.n_figs w)
  /\ exists f, gcf w' = Some f
               /\ Fig.panel_titles f = titles_of_a_run
               /\ Fig.grid_panels f = 10%nat
               /\ Fig.drawn_panels f = 9%nat
               /\ Fig.colorbars f = 3%nat.
Proof.
  intros H. destruct w as [c0 m0 d0 r0 g0 o0 s0 t0].
  unfold_blocks H. run H.
  split; [reflexivity|]. split; [reflexivity|]. split; [|split].
  - cbn [trace]. rewrite <- !app_assoc. reflexivity.
  - unfold W.n_figs. cbn [gcf old_figs]. destruct g0; simpl; lia.
  - eexists. split; [reflexivity|]. repeat split; vm_compute; reflexivity.
Qed.

(** The figure is a function of the decoded signal, the path, the style in
    force and the number of figures already open. *)
Lemma draw_figure_deterministic lib p y sr w1 w2 n1 n2 w1' w2' :
  rc_style w1 = rc_style w2 ->
  W.n_figs w1 = W.n_figs w2 ->
  draw_figure lib p y sr w1 = (Ok n1, w1') ->
  draw_figure lib p y sr w2 = (Ok n2, w2') ->
  gcf w1' = gcf w2' /\ rc_style w1' = rc_style w2'.
Proof.
  intros Hs Hn H1 H2.
  destruct w1 as [c1 m1 d1 r1 g1 o1 s1 t1], w2 as [c2 m2 d2 r2 g2 o2 s2 t2].
  cbn [rc_style] in Hs. subst s2.
  world_norm Hn.
  unfold_blocks H1. run H1. unfold_blocks H2. run H2. same_results.
  cbn [gcf rc_style]. rewrite Hn. split; reflexivity.
Qed.

(* ===================================================================== *)
(** ** Saving, reporting, closing *)
(* ===================================================================== *)

Lemma plt_savefig_Ok lib name w u w' :
  plt_savefig lib name w = (Ok u, w') ->
  exists f, gcf w = Some f
    /\ w' = W.set_fs (<[OsPath.resolve (cwd w) name
                        := savefig_png lib (rc_style w) f]> (fs w)) w.
Proof.
  unfold plt_savefig. destruct (gcf w) as [f|]; [|discriminate].
  destruct (raises lib w _); [discriminate|].
  intros H. inversion H. exists f. auto.
Qed.

(** A failing save leaves the console and the window as they were. *)
Lemma plt_savefig_Raise lib name w e w' :
  plt_savefig lib name w = (Raise e, w') -> front w' = front w.
Proof.
  unfold plt_savefig. destruct (gcf w) as [f|].
  - destruct (raises lib w _); [|discriminate].
    intros H. inversion H. now destruct (savefig_partial lib w _).
  - intros H. now inversion H.
Qed.

Lemma report_and_close_alive w :
  tk_alive (root w) = true ->
  (print completion_message;; close_app) w
  = (Ok tt, W.set_root (closed (root w))
              (W.set_console (console w ++ [completion_message]) w)).
Proof.
  intros Ha. destruct w as [c0 m0 d0 [a ml ti ge bg pk] g0 o0 s0 t0].
  simpl in Ha. subst a. reflexivity.
Qed.

Lemma report_and_close_dead w :
  tk_alive (root w) = false ->
  ((print completion_message;; close_app) w).1 = Raise TclError.
Proof.
  intros Ha. destruct w as [c0 m0 d0 [a ml ti ge bg pk] g0 o0 s0 t0].
  simpl in Ha. subst a. reflexivity.
Qed.

(** A save-and-close that returned found a figure and an open window, wrote
    the figure under the output name, printed the message and closed the
    window. *)
Lemma save_and_close_Ok lib name w u w' :
  save_and_close lib name w = (Ok u, w') ->
  exists f, gcf w = Some f
    /\ tk_alive (root w) = true
    /\ w' = mkWorld (console w ++ [completion_message])
              (<[OsPath.resolve (cwd w) (output_name name)
                 := savefig_png lib (rc_style w) f]> (fs w))
              (cwd w) (closed (root w)) (gcf w) (old_figs w) (rc_style w)
              (trace w).
Proof.
  intros H. unfold save_and_close in H.
  apply bind_Ok in H. destruct H as (u1 & w1 & H1 & H).
  apply plt_savefig_Ok in H1. destruct H1 as (f & Hg & ->).
  destruct (tk_alive (root w)) eqn:Ha.
  - rewrite report_and_close_alive in H by exact Ha.
    inversion H. exists f. split; [exact Hg|]. split; reflexivity.
  - pose proof (report_and_close_dead
                  (W.set_fs (<[OsPath.resolve (cwd w) (output_name name)
                               := savefig_png lib (rc_style w) f]> (fs w)) w) Ha) as D.
    rewrite H in D. discriminate.
Qed.

Lemma save_and_close_Raise lib name w e w' :
  tk_alive (root w) = true ->
  save_and_close lib name w = (Raise e, w') -> front w' = front w.
Proof.
  intros Ha H. unfold save_and_close in H.
  apply bind_Raise in H. destruct H as [H|(u1 & w1 & H1 & H)].
  - now apply plt_savefig_Raise in H.
  - apply plt_savefig_Ok in H1. destruct H1 as (f & Hg & ->).
    rewrite report_and_close_alive in H by exact Ha. discriminate.
Qed.

(* ===================================================================== *)
(** ** [analyze_file] by outcome *)
(* ===================================================================== *)

Lemma load_eq lib p w :
  load lib p w
  = (librosa_load lib (fs w) (OsPath.resolve (cwd w) p), W.log fn_load w).
Proof. reflexivity. Qed.

Lemma analyze_file_decode_failure lib p w e :
  librosa_load lib (fs w) (OsPath.resolve (cwd w) p) = Raise e ->
  analyze_file lib p w
  = (Ok tt, W.set_console (console w ++ ["Error loading file: " +:+ exn_msg e])
              (W.log fn_load w)).
Proof.
  intros E. unfold analyze_file, try_except, mbind, M_bind, bind, load, librosa.
  rewrite E. reflexivity.
Qed.

Lemma analyze_file_decoded lib p w y sr :
  librosa_load lib (fs w) (OsPath.resolve (cwd w) p) = Ok (y, sr) ->
  analyze_file lib p w
  = try_except (analysis lib p y sr)
      (fun e => print ("Error analyzing file: " ++ exn_msg e))
      (W.log fn_load w).
Proof.
  intros E. unfold analyze_file, mbind, M_bind, bind.
  unfold try_except at 1. unfold mbind, M_bind, bind, load, librosa.
  rewrite E. reflexivity.
Qed.

Lemma outcome_Succeeded lib p w :
  outcome lib p w = Succeeded ->
  exists y sr w',
    librosa_load lib (fs w) (OsPath.resolve (cwd w) p) = Ok (y, sr)
    /\ analysis lib p y sr (W.log fn_load w) = (Ok tt, w')
    /\ analyze_file lib p w = (Ok tt, w').
Proof.
  unfold outcome. rewrite load_eq.
  destruct (librosa_load lib _ _) as [[y sr]|e] eqn:E; [|discriminate].
  destruct (analysis lib p y sr _) as [[[]|e] w'] eqn:Ea; [|discriminate].
  intros _. exists y, sr, w'. split; [reflexivity|]. split; [exact Ea|].
  rewrite (analyze_file_decoded _ _ _ _ _ E). unfold try_except. now rewrite Ea.
Qed.

Lemma outcome_AnalysisFailed lib p w e :
  outcome lib p w = AnalysisFailed e ->
  exists y sr w',
    librosa_load lib (fs w) (OsPath.resolve (cwd w) p) = Ok (y, sr)
    /\ analysis lib p y sr (W.log fn_load w) = (Raise e, w')
    /\ analyze_file lib p w
       = (Ok tt, W.set_console (console w' ++ ["Error analyzing file: " +:+ exn_msg e]) w').
Proof.
  unfold outcome. rewrite load_eq.
  destruct (librosa_load lib _ _) as [[y sr]|e0] eqn:E; [|discriminate].
  destruct (analysis lib p y sr _) as [[[]|e1] w'] eqn:Ea; [discriminate|].
  intros H. injection H as <-. exists y, sr, w'.
  split; [reflexivity|]. split; [exact Ea|].
  rewrite (analyze_file_decoded _ _ _ _ _ E). unfold try_except. now rewrite Ea.
Qed.

(** A drawing that returned left the shell alone. *)
Lemma draw_figure_shell lib p y sr w n w' :
  draw_figure lib p y sr w = (Ok n, w') -> shell w' = shell w.
Proof.
  intros H. pose proof (draw_figure_keeps_shell lib p y sr w) as K.
  now rewrite H in K.
Qed.

Lemma draw_figure_shell_raise lib p y sr w e w' :
  draw_figure lib p y sr w = (Raise e, w') -> shell w' = shell w.
Proof.
  intros H. pose proof (draw_figure_keeps_shell lib p y sr w) as K.
  now rewrite H in K.
Qed.

(** What a complete analysis has done. *)
Lemma analysis_Ok lib p y sr w u w' :
  analysis lib p y sr w = (Ok u, w') ->
  exists w1 f,
    draw_figure lib p y sr w = (Ok (OsPath.basename p), w1)
    /\ gcf w' = Some f /\ gcf w1 = Some f
    /\ Fig.panel_titles f = titles_of_a_run
    /\ Fig.grid_panels f = 10%nat
    /\ Fig.drawn_panels f = 9%nat
    /\ Fig.colorbars f = 3%nat
    /\ W.n_figs w' = S (W.n_figs w)
    /\ console w' = console w ++ [completion_message]
    /\ fs w' = <[OsPath.resolve (cwd w) (output_name (OsPath.basename p))
                 := savefig_png lib (Some "dark_background") f]> (fs w)
    /\ cwd w' = cwd w
    /\ tk_alive (root w) = true
    /\ root w' = closed (root w1)
    /\ trace w' = trace w ++ calls_of_a_run.
Proof.
  intros H. unfold analysis in H.
  apply bind_Ok in H. destruct H as (n & w1 & H1 & H).
  pose proof (draw_figure_shell _ _ _ _ _ _ _ H1) as Hsh.
  pose proof (draw_figure_Ok _ _ _ _ _ _ _ H1)
    as (-> & Hst & Htr & Hn & f & Hg & Ht & Hgp & Hdp & Hcb).
  unfold shell in Hsh. injection Hsh as Hc Hf Hd Hal Hml.
  apply save_and_close_Ok in H.
  destruct H as (f' & Hg' & Ha & ->).
  exists w1, f. cbn [console fs cwd root gcf old_figs rc_style trace].
  rewrite Hg in Hg'. injection Hg' as <-.
  rewrite Hc, Hf, Hd, Hst.
  repeat split; try assumption; congruence.
Qed.

Lemma analysis_Raise lib p y sr w e w' :
  tk_alive (root w) = true ->
  analysis lib p y sr w = (Raise e, w') ->
  console w' = console w
  /\ tk_alive (root w') = tk_alive (root w)
  /\ tk_mainloop (root w') = tk_mainloop (root w).
Proof.
  intros Ha H. unfold analysis in H.
  apply bind_Raise in H. destruct H as [H|(n & w1 & H1 & H)].
  - apply draw_figure_shell_raise in H. unfold shell in H.
    injection H as Hc _ _ Hal Hml. auto.
  - apply draw_figure_shell in H1. unfold shell in H1.
    injection H1 as Hc _ _ Hal Hml.
    apply save_and_close_Raise in H; [|congruence].
    unfold front in H. injection H as Hc' Hr'.
    rewrite Hr'. repeat split; congruence.
Qed.

(* ===================================================================== *)
(** ** Names *)
(* ===================================================================== *)

Module PathFacts.
Import OsPath.

Lemma take_drop n s : (take n s ++ drop n s)%string = s.
Proof.
  revert s. induction n as [|n IH]; intros [|a s]; simpl; try reflexivity.
  change (String a (take n s ++ drop n s)%string = String a s).
  f_equal. apply IH.
Qed.

Lemma append_empty s : (s ++ "")%string = s.
Proof.
  induction s as [|a s IH]; [reflexivity|].
  change (String a (s ++ "")%string = String a s). now rewrite IH.
Qed.

(** The two parts [splitext] returns make up the name. *)
Lemma splitext_join name :
  ((splitext name).1 ++ (splitext name).2)%string = name.
Proof.
  unfold splitext.
  destruct (rfind sep name <? rfind extsep name)%Z; simpl.
  - destruct (has_non_dot _); simpl.
    + apply take_drop.
    + apply append_empty.
  - apply append_empty.
Qed.

End PathFacts.

Module NameFacts.
Import OsPath.

Lemma rfind_from_sep s : forall i last,
  (last < i)%Z ->
  let r := rfind_from sep s i last in
  (r = last /\ has_sep s = false)
  \/ ((i <= r)%Z /\ has_sep (drop (Z.to_nat (r - i + 1)) s) = false).
Proof.
  induction s as [|a s IH]; intros i last Hlt; simpl.
  - left. auto.
  - destruct (Ascii.eqb a sep) eqn:Ea; simpl.
    + destruct (IH (i + 1)%Z i ltac:(lia)) as [[Hr Hs]|[Hr Hs]].
      * right. rewrite Hr. split; [lia|].
        replace (i - i + 1)%Z with 1%Z by lia. exact Hs.
      * right. split; [lia|].
        replace (Z.to_nat (rfind_from sep s (i + 1) i - i + 1))
          with (S (Z.to_nat (rfind_from sep s (i + 1) i - (i + 1) + 1))) by lia.
        exact Hs.
    + destruct (IH (i + 1)%Z last ltac:(lia)) as [[Hr Hs]|[Hr Hs]].
      * left. auto.
      * right. split; [lia|].
        replace (Z.to_nat (rfind_from sep s (i + 1) last - i + 1))
          with (S (Z.to_nat (rfind_from sep s (i + 1) last - (i + 1) + 1))) by lia.
        exact Hs.
Qed.

(** [os.path.basename] returns a name without a directory part. *)
Lemma basename_plain p : has_sep (basename p) = false.
Proof.
  unfold basename, rfind.
  destruct (rfind_from_sep p 0 (-1) ltac:(lia)) as [[Hr Hs]|[Hr Hs]].
  - rewrite Hr. exact Hs.
  - replace (rfind_from sep p 0 (-1) + 1)%Z
      with (rfind_from sep p 0 (-1) - 0 + 1)%Z by lia.
    exact Hs.
Qed.

Lemma take_plain n s : has_sep s = false -> has_sep (take n s) = false.
Proof.
  revert s. induction n as [|n IH]; intros [|a s]; simpl; try reflexivity.
  rewrite orb_false_iff. intros [Ha Hs]. rewrite Ha. simpl. now apply IH.
Qed.

Lemma append_plain s t :
  has_sep s = false -> has_sep t = false -> has_sep (s ++ t)%string = false.
Proof.
  intros Hs Ht. induction s as [|a s IH]; [exact Ht|].
  change (has_sep (String a (s ++ t)%string) = false).
  simpl in *. apply orb_false_iff in Hs. destruct Hs as [Ha Hs].
  rewrite Ha. simpl. now apply IH.
Qed.

Lemma splitext_plain name :
  has_sep name = false -> has_sep (splitext name).1 = false.
Proof.
  intros H. unfold splitext.
  destruct (_ <? _)%Z; [|exact H].
  destruct (has_non_dot _); [|exact H].
  simpl. now apply take_plain.
Qed.

(** The output name has no directory part... *)
Lemma output_name_plain p : has_sep (output_name (basename p)) = false.
Proof.
  unfold output_name. apply append_plain; [|reflexivity].
  apply splitext_plain, basename_plain.
Qed.

Lemma plain_not_abs s : has_sep s = false -> isabs s = false.
Proof.
  destruct s as [|a s]; [reflexivity|]. simpl.
  rewrite orb_false_iff. tauto.
Qed.

Lemma resolve_plain d s :
  has_sep s = false -> resolve d s = (d ++ "/" ++ s)%string.
Proof. intros H. unfold resolve. now rewrite plain_not_abs. Qed.

(** ... so it names a file of the working directory itself. *)
Lemma output_path d p :
  resolve d (output_name (basename p))
  = (d ++ "/" ++ (splitext (basename p)).1 ++ ".png")%string.
Proof. apply resolve_plain, output_name_plain. Qed.

Lemma length_append s t :
  String.length (s ++ t)%string = (String.length s + String.length t)%nat.
Proof.
  induction s as [|a s IH]; [reflexivity|].
  change (S (String.length (s ++ t)%string) = S (String.length s + String.length t)).
  now rewrite IH.
Qed.

Lemma append_inv_tail s1 s2 t :
  (s1 ++ t)%string = (s2 ++ t)%string -> s1 = s2.
Proof.
  revert s2. induction s1 as [|a s1 IH]; intros [|b s2] H.
  - reflexivity.
  - apply (f_equal String.length) in H.
    rewrite !length_append in H. simpl in H. lia.
  - apply (f_equal String.length) in H.
    rewrite !length_append in H. simpl in H. lia.
  - change (String a (s1 ++ t)%string = String b (s2 ++ t)%string) in H.
    injection H as -> H. f_equal. now apply IH.
Qed.

(** Two names of one directory are one file only if they are one name. *)
Lemma output_path_inj d p other :
  resolve d (output_name (basename p)) = resolve d (other ++ ".png")%string ->
  has_sep other = false ->
  (splitext (basename p)).1 = other.
Proof.
  intros H Ho. rewrite output_path in H.
  rewrite (resolve_plain d (other ++ ".png")%string) in H
    by (apply append_plain; [exact Ho|reflexivity]).
  apply (inj (String.app d)) in H. apply (inj (String.app "/")) in H.
  now apply append_inv_tail in H.
Qed.

End NameFacts.

(* ===================================================================== *)
(** ** The shell *)
(* ===================================================================== *)

Lemma idle_alive w : W.idle w = true -> tk_alive (root w) = true.
Proof. unfold W.idle. now intros [? ?]%andb_true_iff. Qed.

(** A click on "Load Music File" answered with a path runs the analysis. *)
Lemma step_load lib w p :
  W.idle w = true -> String.eqb p "" = false ->
  step lib w (ClickLoad p) = (analyze_file lib p w).2.
Proof.
  intros Hi Hp. unfold step, callback, load_file. now rewrite Hi, Hp.
Qed.

(** Once the window is gone no click is dispatched. *)
Lemma mainloop_over lib evs w : W.idle w = false -> mainloop lib evs w = w.
Proof.
  intros Hi. induction evs as [|ev evs IH]; [reflexivity|].
  unfold mainloop in *. simpl.
  replace (step lib w ev) with w; [exact IH|].
  unfold step. now rewrite Hi.
Qed.

Lemma outcome_DecodeFailed lib p w e :
  outcome lib p w = DecodeFailed e ->
  librosa_load lib (fs w) (OsPath.resolve (cwd w) p) = Raise e.
Proof.
  unfold outcome. rewrite load_eq.
  destruct (librosa_load lib _ _) as [[y sr]|e0]; [|congruence].
  now destruct (analysis lib p y sr _) as [[[]|e1] w'].
Qed.

(* ===================================================================== *)
(** ** The claims *)
(* ===================================================================== *)




(** C3: when the decoding of the chosen file fails, the click leaves the
    world as it was except for the console, which has one more line, "Error
    loading file: " followed by the message, and the record of the one
    library call; no file is written, no figure is created, and the window
    stays open and dispatching. *)
Theorem C3_decode_failure_reported lib p w e :
  W.idle w = true ->
  String.eqb p "" = false ->
  outcome lib p w = DecodeFailed e ->
  let w' := step lib w (ClickLoad p) in
  let line := "Error loading file: " +:+ exn_msg e in
  w' = mkWorld (console w ++ [line]) (fs w) (cwd w) (root w)
               (gcf w) (old_figs w) (rc_style w) (trace w ++ [fn_load])
  /\ str_contains "Error loading file" line = true
  /\ W.idle w' = true.
Proof.
  intros Hi Hp Ho w' line. subst w'.
  rewrite step_load by assumption.
  apply outcome_DecodeFailed in Ho.
  rewrite (analyze_file_decode_failure _ _ _ _ Ho). cbn [snd].
  split; [reflexivity|]. split; [reflexivity|]. exact Hi.
Qed.

Lemma C3_decode_failure_witness :
  W.idle Demo.start = true
  /\ String.eqb "/music/empty.wav" "" = false
  /\ outcome Demo.good "/music/empty.wav" Demo.start = DecodeFailed Demo.NoBackend
  /\ fs (step Demo.good Demo.start (ClickLoad "/music/empty.wav")) = fs Demo.start.
Proof.
  split; [reflexivity|]. split; [reflexivity|]. split; [vm_compute; reflexivity|].
  destruct (C3_decode_failure_reported Demo.good "/music/empty.wav" Demo.start
              Demo.NoBackend) as (-> & _).
  - reflexivity.
  - reflexivity.
  - vm_compute; reflexivity.
  - reflexivity.
Defined.

(** C4: a run that succeeds changes the files at exactly one path: the
    working directory joined with the input's base name in which the
    extension (the second part [os.path.splitext] returns, possibly empty)
    is replaced by ".png"; that name has no directory part; what the file
    holds afterwards, whatever it held before, is the PNG of the figure the
    run drew from the decoded samples, which is pyplot's current figure
    after the run, saved under the dark style; and the console gains the
    completion message as its last line. *)
Theorem C4_one_png_in_cwd lib p w :
  outcome lib p w = Succeeded ->
  let w' := (analyze_file lib p w).2 in
  let name := OsPath.basename p in
  let stem := (OsPath.splitext name).1 in
  let out := (cwd w +:+ "/" +:+ stem +:+ ".png") in
  (stem +:+ (OsPath.splitext name).2) = name
  /\ has_sep (stem +:+ ".png") = false
  /\ (exists y sr w1 f,
        librosa_load lib (fs w) (OsPath.resolve (cwd w) p) = Ok (y, sr)
        /\ draw_figure lib p y sr (W.log fn_load w) = (Ok name, w1)
        /\ gcf w1 = Some f
        /\ gcf w' = Some f
        /\ Fig.panel_titles f = titles_of_a_run
        /\ fs w' = <[out := savefig_png lib (Some "dark_background") f]> (fs w)
        /\ fs w' !! out = Some (savefig_png lib (Some "dark_background") f))
  /\ (forall path, path <> out -> fs w' !! path = fs w !! path)
  /\ console w' = console w ++ [completion_message].
Proof.
  intros Ho w' name stem out.
  apply outcome_Succeeded in Ho.
  destruct Ho as (y & sr & w2 & Hl & Ha & Hr). subst w'. rewrite Hr. cbn [snd].
  apply analysis_Ok in Ha.
  destruct Ha as (w1 & f & Hd & Hg & Hg1 & Ht & _ & _ & _ & _ & Hc & Hf & _).
  cbn [fs cwd console W.log] in Hf, Hc.
  rewrite NameFacts.output_path in Hf. fold name stem out in Hf.
  split; [apply PathFacts.splitext_join|].
  split; [apply NameFacts.output_name_plain|].
  split.
  { exists y, sr, w1, f.
    split; [exact Hl|]. split; [exact Hd|]. split; [exact Hg1|].
    split; [exact Hg|]. split; [exact Ht|]. split; [exact Hf|].
    rewrite Hf. apply lookup_insert_eq. }
  split; [intros path Hne; rewrite Hf; now apply lookup_insert_ne|].
  exact Hc.
Qed.

Lemma C4_one_png_witness :
  outcome Demo.good "/music/song.mp3" Demo.start_again = Succeeded
  /\ fs Demo.start_again !! "/home/user/song.png" = Some Demo.old_plot
  /\ exists f,
       gcf (analyze_file Demo.good "/music/song.mp3" Demo.start_again).2 = Some f
       /\ fs (analyze_file Demo.good "/music/song.mp3" Demo.start_again).2
            !! "/home/user/song.png"
          = Some (Demo.png (Some "dark_background") f)
       /\ Demo.png (Some "dark_background") f <> Demo.old_plot.
Proof.
  split; [vm_compute; reflexivity|].
  split; [vm_compute; reflexivity|].
  destruct (C4_one_png_in_cwd Demo.good "/music/song.mp3" Demo.start_again)
    as (_ & _ & (y & sr & w1 & f & _ & _ & _ & Hg & _ & _ & Hf) & _).
  - vm_compute; reflexivity.
  - exists f. split; [exact Hg|]. split; [exact Hf|].
    unfold Demo.png, Demo.old_plot. cbn [app]. discriminate.
Defined.

(* ===================================================================== *)
(** ** What a run depends on *)
(* ===================================================================== *)

Lemma view_eq w1 w2 :
  view w1 = view w2
  <-> cwd w1 = cwd w2 /\ root w1 = root w2 /\ gcf w1 = gcf w2
      /\ old_figs w1 = old_figs w2 /\ rc_style w1 = rc_style w2.
Proof.
  unfold view. split.
  - intros H. injection H as -> -> -> -> ->. auto.
  - intros (-> & -> & -> & -> & ->). reflexivity.
Qed.

Section ByView.

Context (lib : Lib) (lib_steady : steady lib).

Lemma bv_ret {A} (a : A) : by_view (ret a).
Proof. intros w1 w2 H. split; [reflexivity|exact H]. Qed.

Lemma bv_lift {A} (r : result A) : by_view (lift r).
Proof. intros w1 w2 H. split; [reflexivity|exact H]. Qed.

Lemma bv_librosa {A} fn (r : result A) : by_view (librosa fn r).
Proof. intros w1 w2 H. split; [reflexivity|exact H]. Qed.

Lemma bv_bind {A B} (m : M A) (k : A -> M B) :
  by_view m -> (forall a, by_view (k a)) -> by_view (m ≫= k).
Proof.
  intros Hm Hk w1 w2 H. unfold mbind, M_bind, bind.
  destruct (Hm w1 w2 H) as [Hr Hv].
  destruct (m w1) as [[a|e] v1], (m w2) as [[a2|e2] v2];
    cbn [fst snd] in *; try discriminate.
  - injection Hr as <-. now apply Hk.
  - injection Hr as <-. split; [reflexivity|exact Hv].
Qed.

Lemma bv_for_each {A} (l : list A) (body : A -> M unit) :
  (forall x, by_view (body x)) -> by_view (for_each l body).
Proof.
  intros Hb. induction l as [|x l IH]; simpl.
  - intros w1 w2 H. split; [reflexivity|exact H].
  - apply (bv_bind (body x) (fun _ => for_each l body)); [apply Hb|intros _; exact IH].
Qed.

Lemma bv_modify f :
  (forall w1 w2, view w1 = view w2 -> view (f w1) = view (f w2)) ->
  by_view (modify f).
Proof. intros Hf w1 w2 H. split; [reflexivity|now apply Hf]. Qed.

Lemma bv_ext c eff :
  (forall w1 w2, view w1 = view w2 -> view (eff w1) = view (eff w2)) ->
  by_view (ext lib c eff).
Proof.
  intros Hf w1 w2 H. unfold ext. rewrite (lib_steady w1 w2 c H).
  destruct (raises lib w2 c); cbn [fst snd].
  - split; [reflexivity|exact H].
  - split; [reflexivity|now apply Hf].
Qed.

Lemma bv_need_root : by_view need_root.
Proof.
  intros w1 w2 H. unfold need_root.
  pose proof (proj1 (view_eq _ _) H) as (_ & -> & _).
  destruct (tk_alive (root w2)); (split; [reflexivity|exact H]).
Qed.

Lemma view_set_gcf f w1 w2 :
  view w1 = view w2 -> view (W.set_gcf f w1) = view (W.set_gcf f w2).
Proof.
  intros H. apply view_eq in H. destruct H as (Hc & Hr & Hg & Ho & Hs).
  apply view_eq. cbn [cwd root gcf old_figs rc_style W.set_gcf]. auto.
Qed.

Lemma bv_ax_call i j c : by_view (ax_call lib i j c).
Proof.
  intros w1 w2 H. unfold ax_call.
  pose proof (proj1 (view_eq _ _) H) as (_ & _ & -> & _).
  destruct (gcf w2) as [f|]; [|split; [reflexivity|exact H]].
  destruct (Fig.in_grid f i j); [|split; [reflexivity|exact H]].
  apply bv_ext; [|exact H]. apply view_set_gcf.
Qed.

Lemma bv_fig_call c : by_view (fig_call lib c).
Proof.
  intros w1 w2 H. unfold fig_call.
  pose proof (proj1 (view_eq _ _) H) as (_ & _ & -> & _).
  destruct (gcf w2) as [f|]; [|split; [reflexivity|exact H]].
  apply bv_ext; [|exact H]. apply view_set_gcf.
Qed.

Lemma bv_subplots nrows ncols size color :
  by_view (plt_subplots lib nrows ncols size color).
Proof.
  intros w1 w2 H. unfold plt_subplots, ext.
  rewrite (lib_steady w1 w2 _ H).
  destruct (raises lib w2 _); cbn [fst snd]; [split; [reflexivity|exact H]|].
  split; [reflexivity|].
  apply view_eq in H. destruct H as (Hc & Hr & Hg & Ho & Hs).
  apply view_eq. unfold W.n_figs.
  cbn [cwd root gcf old_figs rc_style W.push_fig].
  rewrite Hc, Hr, Hg, Ho, Hs. auto.
Qed.

Lemma bv_style_use s : by_view (plt_style_use lib s).
Proof.
  apply bv_ext. intros w1 w2 H.
  apply view_eq in H. destruct H as (Hc & Hr & Hg & Ho & Hs).
  apply view_eq. cbn [cwd root gcf old_figs rc_style W.set_style]. auto.
Qed.

Lemma bv_ax_flat : by_view ax_flat.
Proof.
  intros w1 w2 H. unfold ax_flat.
  pose proof (proj1 (view_eq _ _) H) as (_ & _ & -> & _).
  destruct (gcf w2); (split; [reflexivity|exact H]).
Qed.

Lemma bv_canvas_new : by_view (canvas_new lib).
Proof.
  intros w1 w2 H. unfold canvas_new.
  pose proof (proj1 (view_eq _ _) H) as (_ & _ & -> & _).
  destruct (gcf w2) as [f|]; [|split; [reflexivity|exact H]].
  refine (bv_bind need_root _ bv_need_root _ w1 w2 H). intros _.
  apply (bv_bind (ext lib E_canvas_new id)); [|intros n; apply bv_ret].
  apply bv_ext. auto.
Qed.

Lemma bv_canvas_draw n : by_view (canvas_draw lib n).
Proof.
  apply (bv_bind need_root); [apply bv_need_root|intros _].
  apply bv_ext. auto.
Qed.

Lemma view_pack x w1 w2 :
  view w1 = view w2 -> view (pack_widget x w1) = view (pack_widget x w2).
Proof.
  intros H. apply view_eq in H. destruct H as (Hc & Hr & Hg & Ho & Hs).
  apply view_eq. unfold pack_widget.
  cbn [cwd root gcf old_figs rc_style W.set_root]. rewrite Hr. auto.
Qed.

Lemma bv_canvas_pack n : by_view (canvas_pack lib n).
Proof.
  apply (bv_bind need_root); [apply bv_need_root|intros _].
  apply bv_ext. apply view_pack.
Qed.

(** Saving looks at the working directory and at the figure; what it
    writes is not part of the view. *)
Lemma bv_savefig name : by_view (plt_savefig lib name).
Proof.
  intros w1 w2 H. unfold plt_savefig.
  pose proof (proj1 (view_eq _ _) H) as (Hc & _ & Hg & _).
  rewrite Hg, Hc. destruct (gcf w2) as [f|]; [|split; [reflexivity|exact H]].
  rewrite (lib_steady w1 w2 _ H).
  destruct (raises lib w2 _); cbn [fst snd].
  - split; [reflexivity|].
    destruct (savefig_partial lib w1 _), (savefig_partial lib w2 _); exact H.
  - split; [reflexivity|exact H].
Qed.

Lemma bv_print s : by_view (print s).
Proof. apply bv_modify. intros w1 w2 H. exact H. Qed.

Lemma bv_close_app : by_view close_app.
Proof.
  unfold close_app, root_quit, root_destroy.
  apply (bv_bind (_ ≫= _)); [|intros _];
    (apply (bv_bind need_root); [apply bv_need_root|intros _]);
    apply bv_modify; intros w1 w2 H;
    apply view_eq in H; destruct H as (Hc & Hr & Hg & Ho & Hs);
    apply view_eq; cbn [cwd root gcf old_figs rc_style W.set_root];
    rewrite Hr; auto.
Qed.

End ByView.

Ltac bv_auto S :=
  cbv beta;
  lazymatch goal with
  | |- by_view (?m ≫= ?k) =>
      apply (bv_bind m k); [bv_auto S | intros; bv_auto S]
  | |- by_view (let '(_, _) := ?p in _) => destruct p; bv_auto S
  | |- by_view (for_each _ _) => apply bv_for_each; intros; bv_auto S
  | |- by_view (ret _) => apply bv_ret
  | |- by_view (lift _) => apply bv_lift
  | |- by_view (librosa _ _) => apply bv_librosa
  | |- by_view (ax_call _ _ _ _) => apply (bv_ax_call _ S)
  | |- by_view (fig_call _ _) => apply (bv_fig_call _ S)
  | |- by_view (plt_subplots _ _ _ _ _) => apply (bv_subplots _ S)
  | |- by_view (plt_style_use _ _) => apply (bv_style_use _ S)
  | |- by_view ax_flat => apply bv_ax_flat
  | |- by_view (canvas_new _) => apply (bv_canvas_new _ S)
  | |- by_view (canvas_draw _ _) => apply (bv_canvas_draw _ S)
  | |- by_view (canvas_pack _ _) => apply (bv_canvas_pack _ S)
  | |- by_view (plt_savefig _ _) => apply (bv_savefig _ S)
  | |- by_view (print _) => apply bv_print
  | |- by_view close_app => apply bv_close_app
  end.

(** With a steady library, whether an analysis returns or raises, and the
    figure it builds, depend on the samples and on the view only: not on
    the files, and so not on what an earlier run wrote. *)
Lemma bv_analysis lib p y sr :
  steady lib -> by_view (analysis lib p y sr).
Proof.
  intros S.
  unfold analysis, save_and_close, draw_figure, create_figure, plot_waveform,
    plot_spectrogram, plot_tempo, plot_mfcc, plot_chroma, plot_zcr, plot_onset,
    plot_frequency_balance, plot_timbre, display_in_gui, fix_labels,
    style_axes, clear_xlabels, label_bar, band_level, ax_bar,
    waveshow, specshow, white_title, white_xlabel, white_ylabel.
  bv_auto S.
Qed.

(** A decoding that returns and an analysis that returns make a run that
    succeeded. *)
Lemma outcome_of_Ok lib p w y sr :
  librosa_load lib (fs w) (OsPath.resolve (cwd w) p) = Ok (y, sr) ->
  (analysis lib p y sr (W.log fn_load w)).1 = Ok tt ->
  outcome lib p w = Succeeded.
Proof.
  intros Hl Ha. unfold outcome. rewrite load_eq, Hl.
  destruct (analysis lib p y sr (W.log fn_load w)) as [[u|e] w']; [reflexivity|].
  discriminate.
Qed.

(** C5: a click that leads to a complete analysis ends with the window
    destroyed and its loop stopped; whatever is clicked afterwards, nothing
    is dispatched any more, so no second analysis runs in this launch. *)
Theorem C5_window_closes_after_success lib p w :
  W.idle w = true ->
  String.eqb p "" = false ->
  outcome lib p w = Succeeded ->
  let w' := step lib w (ClickLoad p) in
  tk_alive (root w') = false
  /\ W.idle w' = false
  /\ forall evs, mainloop lib evs w' = w'.
Proof.
  intros Hi Hp Ho w'. subst w'. rewrite step_load by assumption.
  apply outcome_Succeeded in Ho. destruct Ho as (y & sr & w2 & _ & Ha & ->).
  cbn [snd]. apply analysis_Ok in Ha.
  destruct Ha as (w1 & f & _ & _ & _ & _ & _ & _ & _ & _ & _ & _ & _ & _ & Hr & _).
  assert (Hd : W.idle w2 = false) by (unfold W.idle; now rewrite Hr).
  split; [now rewrite Hr|]. split; [exact Hd|].
  intros evs. now apply mainloop_over.
Qed.

Lemma C5_window_closes_witness :
  W.idle Demo.start = true
  /\ String.eqb "/music/song.mp3" "" = false
  /\ outcome Demo.good "/music/song.mp3" Demo.start = Succeeded
  /\ tk_alive (root (step Demo.good Demo.start (ClickLoad "/music/song.mp3"))) = false.
Proof.
  split; [reflexivity|]. split; [reflexivity|]. split; [vm_compute; reflexivity|].
  refine (proj1 (C5_window_closes_after_success Demo.good "/music/song.mp3"
                   Demo.start _ _ _)).
  - reflexivity.
  - reflexivity.
  - vm_compute; reflexivity.
Defined.

(** C6: when the decoding succeeds and anything in the second [try] raises
    (a feature, a panel, the canvas, the saving), the callback still returns
    normally, the console gains exactly one line, "Error analyzing file: "
    followed by the message, and the window is open and dispatching as
    before. *)
Theorem C6_analysis_error_is_caught lib p w e :
  W.idle w = true ->
  String.eqb p "" = false ->
  outcome lib p w = AnalysisFailed e ->
  let w' := step lib w (ClickLoad p) in
  let line := "Error analyzing file: " +:+ exn_msg e in
  callback lib (ClickLoad p) w = (Ok tt, w')
  /\ console w' = console w ++ [line]
  /\ String.prefix "Error analyzing file" line = true
  /\ W.idle w' = true.
Proof.
  intros Hi Hp Ho w' line. subst w'. rewrite step_load by assumption.
  unfold callback, load_file. rewrite Hp.
  apply outcome_AnalysisFailed in Ho. destruct Ho as (y & sr & w2 & _ & Ha & Hr).
  rewrite Hr. cbn [snd].
  apply analysis_Raise in Ha; [|now apply idle_alive].
  destruct Ha as (Hc & Hal & Hml). cbn [console root W.log] in Hc, Hal, Hml.
  split; [reflexivity|].
  split; [cbn [console W.set_console]; now rewrite Hc|].
  split; [reflexivity|].
  unfold W.idle in *. cbn [root W.set_console]. now rewrite Hal, Hml.
Qed.

Lemma C6_analysis_error_witness :
  W.idle Demo.start = true
  /\ String.eqb "/music/song.mp3" "" = false
  /\ outcome Demo.disk_full "/music/song.mp3" Demo.start
     = AnalysisFailed (mkExn "OSError" "No space left on device")
  /\ W.idle (step Demo.disk_full Demo.start (ClickLoad "/music/song.mp3")) = true.
Proof.
  split; [reflexivity|]. split; [reflexivity|]. split; [vm_compute; reflexivity|].
  refine (proj2 (proj2 (proj2
    (C6_analysis_error_is_caught Demo.disk_full "/music/song.mp3" Demo.start
       (mkExn "OSError" "No space left on device") _ _ _)))).
  - reflexivity.
  - reflexivity.
  - vm_compute; reflexivity.
Defined.

(** C7: launch the program, analyse a file, launch it again in the same
    working directory and analyse the same file.  The second launch finds
    the files as the first run left them, where the output file may hold
    the first run's plot or anything else.  If the first run succeeds and
    the second decodes the same samples, then with a steady library the
    second run succeeds too; and whenever it succeeds it draws the same
    figure and writes that figure's PNG over what the output file held,
    without a word (its console holds the completion message and nothing
    else): the output file holds what it held after the first run, and so
    do all the files. *)
Theorem C7_second_run_rewrites_same_file lib files dir p files2 :
  String.eqb p "" = false ->
  let out := (dir +:+ "/" +:+ (OsPath.splitext (OsPath.basename p)).1 +:+ ".png") in
  let w1 := step lib (launch files dir) (ClickLoad p) in
  let w2 := step lib (launch files2 dir) (ClickLoad p) in
  outcome lib p (launch files dir) = Succeeded ->
  (forall path, path <> out -> files2 !! path = fs w1 !! path) ->
  librosa_load lib files2 (OsPath.resolve dir p)
  = librosa_load lib files (OsPath.resolve dir p) ->
  (steady lib -> outcome lib p (launch files2 dir) = Succeeded)
  /\ (outcome lib p (launch files2 dir) = Succeeded ->
      exists f,
        gcf w1 = Some f
        /\ gcf w2 = Some f
        /\ fs w1 !! out = Some (savefig_png lib (Some "dark_background") f)
        /\ fs w2 !! out = Some (savefig_png lib (Some "dark_background") f)
        /\ fs w2 = fs w1
        /\ console w2 = [completion_message]).
Proof.
  intros Hp out w1 w2 Ho1 Hagree Hsame.
  assert (E1 : w1 = (analyze_file lib p (launch files dir)).2)
    by (subst w1; now rewrite step_load).
  assert (E2 : w2 = (analyze_file lib p (launch files2 dir)).2)
    by (subst w2; now rewrite step_load).
  clearbody w1 w2.
  apply outcome_Succeeded in Ho1. destruct Ho1 as (y & sr & v1 & L1 & A1 & R1).
  rewrite R1 in E1. cbn [snd] in E1. subst v1.
  cbn [fs cwd launch] in L1.
  split.
  - intros S. apply (outcome_of_Ok _ _ _ y sr).
    + cbn [fs cwd launch]. now rewrite Hsame.
    + destruct (bv_analysis lib p y sr S (W.log fn_load (launch files2 dir))
                  (W.log fn_load (launch files dir))) as [Hr _]; [reflexivity|].
      rewrite Hr, A1. reflexivity.
  - intros Ho2.
    apply outcome_Succeeded in Ho2. destruct Ho2 as (y2 & sr2 & v2 & L2 & A2 & R2).
    rewrite R2 in E2. cbn [snd] in E2. subst v2.
    cbn [fs cwd launch] in L2. rewrite Hsame, L1 in L2. injection L2 as <- <-.
    apply analysis_Ok in A1.
    destruct A1 as (u1 & f1 & D1 & G1' & G1 & _ & _ & _ & _ & _ & _ & F1 & _).
    apply analysis_Ok in A2.
    destruct A2 as (u2 & f2 & D2 & G2' & G2 & _ & _ & _ & _ & _ & C2 & F2 & _).
    assert (Hg : gcf u1 = gcf u2).
    { eapply (draw_figure_deterministic lib p y sr); [| |exact D1|exact D2];
        reflexivity. }
    rewrite G1, G2 in Hg. injection Hg as <-.
    cbn [fs cwd console launch W.log] in F1, F2, C2.
    rewrite NameFacts.output_path in F1, F2. fold out in F1, F2.
    exists f1.
    split; [exact G1'|]. split; [exact G2'|].
    split; [rewrite F1; apply lookup_insert_eq|].
    split; [rewrite F2; apply lookup_insert_eq|].
    split; [|exact C2].
    apply map_eq. intros path. destruct (decide (path = out)) as [->|Hne].
    + now rewrite F1, F2, !lookup_insert_eq.
    + rewrite F2, lookup_insert_ne by congruence. now apply Hagree.
Qed.

Lemma C7_second_run_witness :
  let out := "/home/user/song.png" in
  let w1 := step Demo.good (launch Demo.files "/home/user") (ClickLoad "/music/song.mp3") in
  let files2 := <[out := Demo.old_plot]> (fs w1) in
  let w2 := step Demo.good (launch files2 "/home/user") (ClickLoad "/music/song.mp3") in
  String.eqb "/music/song.mp3" "" = false
  /\ outcome Demo.good "/music/song.mp3" (launch Demo.files "/home/user") = Succeeded
  /\ files2 !! out = Some Demo.old_plot
  /\ outcome Demo.good "/music/song.mp3" (launch files2 "/home/user") = Succeeded
  /\ fs w2 !! out <> Some Demo.old_plot
  /\ fs w2 = fs w1.
Proof.
  intros out w1 files2 w2.
  split; [reflexivity|]. split; [vm_compute; reflexivity|].
  split; [apply lookup_insert_eq|].
  destruct (C7_second_run_rewrites_same_file Demo.good Demo.files "/home/user"
              "/music/song.mp3" files2) as [Hs Hw].
  - reflexivity.
  - vm_compute; reflexivity.
  - intros path Hne. apply lookup_insert_ne.
    intros E. apply Hne. symmetry. exact E.
  - vm_compute; reflexivity.
  - assert (Ho : outcome Demo.good "/music/song.mp3" (launch files2 "/home/user")
                 = Succeeded).
    { apply Hs. intros w w' c _. reflexivity. }
    split; [exact Ho|].
    destruct (Hw Ho) as (f & _ & _ & _ & Hf & He & _).
    split; [|exact He].
    clear. vm_compute. intros E. discriminate E.
Defined.

(** C8: when the dialog is cancelled (it returns the empty string),
    [load_file] returns at once and the world is what it was: nothing is
    decoded or analysed, no file written, nothing printed, the window as
    before. *)
Theorem C8_cancel_does_nothing lib w :
  load_file lib "" w = (Ok tt, w)
  /\ step lib w (ClickLoad "") = w.
Proof.
  split; [reflexivity|]. unfold step. now destruct (W.idle w).
Qed.

(** C9: after every run that succeeds the last line of the console is the
    completion message, which contains 'music_analysis_plot.png' whatever
    the input is called.  The file the run writes is the one named after
    the input: the working directory, "/", the input's base name without
    its extension, ".png"; it holds the figure's PNG afterwards.  When that
    stem is not "music_analysis_plot", the file the message names is
    another path, and it is what it was before the run (absent, if it was
    absent): the message names a file that was not written. *)
Theorem C9_message_names_a_fixed_file lib p w :
  outcome lib p w = Succeeded ->
  (OsPath.splitext (OsPath.basename p)).1 <> "music_analysis_plot" ->
  let w' := (analyze_file lib p w).2 in
  let stem := (OsPath.splitext (OsPath.basename p)).1 in
  let written := (cwd w +:+ "/" +:+ stem +:+ ".png") in
  let named := (cwd w +:+ "/" +:+ "music_analysis_plot.png") in
  console w' = console w ++ [completion_message]
  /\ str_contains "music_analysis_plot.png" completion_message = true
  /\ (exists f,
        gcf w' = Some f
        /\ fs w' = <[written := savefig_png lib (Some "dark_background") f]> (fs w)
        /\ fs w' !! written = Some (savefig_png lib (Some "dark_background") f))
  /\ named = OsPath.resolve (cwd w) "music_analysis_plot.png"
  /\ written <> named
  /\ fs w' !! named = fs w !! named.
Proof.
  intros Ho Hne w' stem written named.
  apply outcome_Succeeded in Ho.
  destruct Ho as (y & sr & w2 & _ & Ha & Hr). subst w'. rewrite Hr. cbn [snd].
  apply analysis_Ok in Ha.
  destruct Ha as (w1 & f & _ & Hg & _ & _ & _ & _ & _ & _ & Hc & Hf & _).
  cbn [fs cwd console W.log] in Hf, Hc.
  rewrite NameFacts.output_path in Hf. fold stem written in Hf.
  assert (Hd : written <> named).
  { intros E. apply Hne. subst written named.
    apply (inj (String.app (cwd w))) in E. apply (inj (String.app "/")) in E.
    change "music_analysis_plot.png" with ("music_analysis_plot" +:+ ".png") in E.
    now apply NameFacts.append_inv_tail in E. }
  split; [exact Hc|]. split; [reflexivity|].
  split.
  { exists f. split; [exact Hg|]. split; [exact Hf|].
    rewrite Hf. apply lookup_insert_eq. }
  split; [reflexivity|]. split; [exact Hd|].
  rewrite Hf. now apply lookup_insert_ne.
Qed.

Lemma C9_message_witness :
  outcome Demo.good "/music/song.mp3" Demo.start = Succeeded
  /\ (OsPath.splitext (OsPath.basename "/music/song.mp3")).1 <> "music_analysis_plot"
  /\ is_Some (fs (analyze_file Demo.good "/music/song.mp3" Demo.start).2
                !! "/home/user/song.png")
  /\ fs (analyze_file Demo.good "/music/song.mp3" Demo.start).2
       !! "/home/user/music_analysis_plot.png"
     = fs Demo.start !! "/home/user/music_analysis_plot.png".
Proof.
  split; [vm_compute; reflexivity|].
  split; [vm_compute; discriminate|].
  destruct (C9_message_names_a_fixed_file Demo.good "/music/song.mp3" Demo.start)
    as (_ & _ & (f & _ & _ & Hf) & _ & _ & Hn).
  - vm_compute; reflexivity.
  - vm_compute; discriminate.
  - split; [|exact Hn]. exists (Demo.png (Some "dark_background") f). exact Hf.
Defined.

(* ===================================================================== *)
(** ** The rows of the three bands *)
(* ===================================================================== *)

Module BandRows.
Import Bands.

Lemma bass_mask_cons f fs :
  bass_mask (f :: fs) = (Num.gtb f 0 && Num.ltb f 150) :: bass_mask fs.
Proof. reflexivity. Qed.

Lemma mid_mask_cons f fs :
  mid_mask (f :: fs) = (Num.geb f 150 && Num.ltb f 2000) :: mid_mask fs.
Proof. reflexivity. Qed.

Lemma treble_mask_cons f fs :
  treble_mask (f :: fs) = Num.geb f 2000 :: treble_mask fs.
Proof. reflexivity. Qed.

Lemma length_bass_mask fs : length (bass_mask fs) = length fs.
Proof.
  induction fs as [|f fs IH]; [reflexivity|].
  rewrite bass_mask_cons. simpl. now rewrite IH.
Qed.

Lemma length_mid_mask fs : length (mid_mask fs) = length fs.
Proof.
  induction fs as [|f fs IH]; [reflexivity|].
  rewrite mid_mask_cons. simpl. now rewrite IH.
Qed.

Lemma length_treble_mask fs : length (treble_mask fs) = length fs.
Proof. unfold treble_mask. apply length_map. Qed.

(** A frequency axis that rises: [g] gives the frequency of bin [k]. *)
Section Rising.

Variable g : nat -> Q.
Hypothesis g_rises : forall i j, (i <= j)%nat -> (g i <= g j)%Q.

Lemma keep_bass_above {A} n : forall a (l : list A),
  (150 <= g a)%Q -> Np.keep l (bass_mask (map g (seq a n))) = [].
Proof.
  induction n as [|n IH]; intros a l Ha; [now destruct l|].
  cbn [seq map]. rewrite bass_mask_cons. destruct l as [|r l]; [reflexivity|].
  cbn [Np.keep].
  destruct (NumFacts.ltb_reflect (g a) 150) as [H|H]; [lra|].
  rewrite andb_false_r. apply IH.
  pose proof (g_rises a (S a) ltac:(lia)). lra.
Qed.

Lemma keep_mid_above {A} n : forall a (l : list A),
  (2000 <= g a)%Q -> Np.keep l (mid_mask (map g (seq a n))) = [].
Proof.
  induction n as [|n IH]; intros a l Ha; [now destruct l|].
  cbn [seq map]. rewrite mid_mask_cons. destruct l as [|r l]; [reflexivity|].
  cbn [Np.keep].
  destruct (NumFacts.ltb_reflect (g a) 2000) as [H|H]; [lra|].
  rewrite andb_false_r. apply IH.
  pose proof (g_rises a (S a) ltac:(lia)). lra.
Qed.

(** Above 0 Hz, the three selections put end to end are the rows. *)
Lemma keep_three_bands {A} n : forall a (l : list A),
  length l = n ->
  (0 < g a)%Q ->
  let freqs := map g (seq a n) in
  Np.keep l (bass_mask freqs) ++ Np.keep l (mid_mask freqs)
    ++ Np.keep l (treble_mask freqs) = l.
Proof.
  induction n as [|n IH]; intros a l Hl Ha freqs; subst freqs.
  - now destruct l.
  - destruct l as [|r l]; [discriminate|]. injection Hl as Hl.
    cbn [seq map]. rewrite bass_mask_cons, mid_mask_cons, treble_mask_cons.
    cbn [Np.keep].
    pose proof (g_rises a (S a) ltac:(lia)) as Hnext.
    assert (Hpos : (0 < g (S a))%Q) by lra.
    specialize (IH (S a) l Hl Hpos). cbn zeta in IH.
    unfold Num.gtb, Num.geb.
    destruct (NumFacts.ltb_reflect 0 (g a)) as [_|H0]; [|lra].
    destruct (NumFacts.ltb_reflect (g a) 150) as [H1|H1];
      destruct (NumFacts.ltb_reflect (g a) 2000) as [H2|H2];
      cbn [andb negb]; try lra.
    + cbn [app]. now rewrite IH.
    + rewrite (keep_bass_above n (S a) l) in * by lra.
      cbn [app] in *. now rewrite IH.
    + rewrite (keep_bass_above n (S a) l) in * by lra.
      rewrite (keep_mid_above n (S a) l) in * by lra.
      cbn [app] in *. now rewrite IH.
Qed.

End Rising.

Lemma bin_ltb sr k (c : Z) :
  Num.ltb (inject_Z (Z.of_nat k * sr) / inject_Z (Z.of_nat n_fft))%Q (c # 1)
  = (Z.of_nat k * sr <? c * 2048)%Z.
Proof.
  unfold Num.ltb, Qdiv.
  change (/ inject_Z (Z.of_nat n_fft))%Q with (1 # 2048)%Q.
  cbn. f_equal; lia.
Qed.

Lemma bin_rises sr i j :
  (0 < sr)%Z -> (i <= j)%nat ->
  (inject_Z (Z.of_nat i * sr) / inject_Z (Z.of_nat n_fft)
   <= inject_Z (Z.of_nat j * sr) / inject_Z (Z.of_nat n_fft))%Q.
Proof.
  intros Hsr Hij. unfold Qle, Qdiv.
  change (/ inject_Z (Z.of_nat n_fft))%Q with (1 # 2048)%Q.
  cbn. apply Nat2Z.inj_le in Hij. nia.
Qed.

Lemma fft_frequencies_cons sr :
  fft_frequencies sr
  = (inject_Z (Z.of_nat 0 * sr) / inject_Z (Z.of_nat n_fft))%Q
    :: map (fun k : nat => (inject_Z (Z.of_nat k * sr) / inject_Z (Z.of_nat n_fft))%Q)
           (seq 1 1024).
Proof.
  unfold fft_frequencies. change (S (n_fft / 2)) with (S 1024).
  now rewrite <- cons_seq, map_cons.
Qed.

Lemma keep_nil_iff {A} (l : list A) : forall mask,
  length l = length mask ->
  Np.keep l mask = [] <-> forall k, nth k mask false = false.
Proof.
  induction l as [|r l IH]; intros [|m mask] Hlen; try discriminate.
  - split; [intros _ [|k]; reflexivity|reflexivity].
  - injection Hlen as Hlen. cbn [Np.keep]. destruct m.
    + split; [discriminate|]. intros H. specialize (H 0%nat). discriminate.
    + rewrite (IH mask Hlen). split.
      * intros H [|k]; [reflexivity|apply H].
      * intros H k. apply (H (S k)).
Qed.














End BandRows.

(* ===================================================================== *)
(** ** The three bars *)
(* ===================================================================== *)

(** One level is the mean of what the conversion to decibels returns for the
    band's rows alone, with [np.max] as its reference; it does not see the
    rows outside the band. *)
Lemma band_level_Ok lib S mask w v w' :
  band_level lib S mask w = (Ok v, w') ->
  exists rows db,
    Np.bool_index S mask = Ok rows
    /\ amplitude_to_db lib (np_max lib) rows = Ok db
    /\ v = np_mean lib db.
Proof.
  intros H. unfold band_level in H.
  apply bind_Ok in H. destruct H as (rows & w1 & H1 & H).
  apply lift_Ok in H1. destruct H1 as [E1 ->].
  apply bind_Ok in H. destruct H as (db & w2 & H2 & H).
  apply librosa_Ok in H2. destruct H2 as [E2 ->].
  apply ret_Ok in H. destruct H as [-> _].
  exists rows, db. auto.
Qed.

Lemma band_level_own_rows lib S1 S2 mask w :
  Np.bool_index S1 mask = Np.bool_index S2 mask ->
  band_level lib S1 mask w = band_level lib S2 mask w.
Proof.
  intros E. unfold band_level, mbind, M_bind, bind, lift. now rewrite E.
Qed.




(** In the small instance the three heights are -6 dB, -85.5 dB and -419 dB:
    each band against its own maximum.  Against the one maximum of the whole
    spectrogram the bass bar would stand at 8 - 1025. *)
Example demo_bars :
  exists f, gcf (analyze_file Demo.good "/music/song.mp3" Demo.start).2 = Some f
    /\ match head (nth 7 (fig_axes f) []) with
       | Some (Bar _ [b; m; t] _) => (b == -6 /\ m == -171 # 2 /\ t == -419)%Q
       | _ => False
       end.
Proof.
  eexists. split; [vm_compute; reflexivity|]. vm_compute. repeat split.
Qed.

(* ===================================================================== *)
(** ** The shell, click by click *)
(* ===================================================================== *)

Lemma close_app_alive w :
  tk_alive (root w) = true ->
  close_app w = (Ok tt, W.set_root (closed (root w)) w).
Proof.
  intros Ha. destruct w as [c0 m0 d0 [a ml ti ge bg pk] g0 o0 s0 t0].
  simpl in Ha. subst a. reflexivity.
Qed.

Lemma step_exit lib w :
  W.idle w = true -> step lib w ClickExit = W.set_root (closed (root w)) w.
Proof.
  intros Hi. unfold step, callback. rewrite Hi.
  now rewrite close_app_alive by now apply idle_alive.
Qed.

(** The three ways a click on "Load Music File" with a path can end, as
    seen on the world it leaves. *)
Lemma step_decode_failed lib p w e :
  W.idle w = true -> String.eqb p "" = false ->
  outcome lib p w = DecodeFailed e ->
  step lib w (ClickLoad p)
  = W.set_console (console w ++ ["Error loading file: " +:+ exn_msg e])
      (W.log fn_load w).
Proof.
  intros Hi Hp Ho. rewrite step_load by assumption.
  apply outcome_DecodeFailed in Ho.
  now rewrite (analyze_file_decode_failure _ _ _ _ Ho).
Qed.

(** A failing save writes nothing or leaves something under the one name. *)
Lemma plt_savefig_Raise_fs lib name w e w' :
  plt_savefig lib name w = (Raise e, w') ->
  fs w' = fs w
  \/ exists b, fs w' = <[OsPath.resolve (cwd w) name := b]> (fs w).
Proof.
  unfold plt_savefig. destruct (gcf w) as [f|].
  - destruct (raises lib w _); [|discriminate].
    intros H. inversion H. destruct (savefig_partial lib w _) as [b|].
    + right. exists b. reflexivity.
    + left. reflexivity.
  - intros H. inversion H. now left.
Qed.

Lemma analysis_Raise_fs lib p y sr w e w' :
  tk_alive (root w) = true ->
  analysis lib p y sr w = (Raise e, w') ->
  fs w' = fs w
  \/ exists b,
       fs w' = <[OsPath.resolve (cwd w) (output_name (OsPath.basename p)) := b]> (fs w).
Proof.
  intros Ha H. unfold analysis in H.
  apply bind_Raise in H. destruct H as [H|(n & w1 & H1 & H)].
  - apply draw_figure_shell_raise in H. unfold shell in H.
    injection H as _ Hf _ _ _. now left.
  - pose proof (draw_figure_shell _ _ _ _ _ _ _ H1) as Hsh.
    apply draw_figure_Ok in H1. destruct H1 as (-> & _).
    unfold shell in Hsh. injection Hsh as _ Hf Hd Hal _.
    unfold save_and_close in H.
    apply bind_Raise in H. destruct H as [H|(u1 & w2 & H2 & H)].
    + apply plt_savefig_Raise_fs in H. rewrite Hf, Hd in H. exact H.
    + apply plt_savefig_Ok in H2. destruct H2 as (f & Hg & ->).
      rewrite report_and_close_alive in H by (cbn [root W.set_fs]; congruence).
      discriminate.
Qed.

Lemma prefix_append s t : String.prefix s (s +:+ t) = true.
Proof.
  induction s as [|a s IH]; [now destruct t|].
  change (String.prefix (String a s) (String a (s +:+ t)) = true).
  simpl. now destruct (ascii_dec a a).
Qed.

(** The world a click leaves, whatever the click and whatever happens:
    the console has grown by at most one line; no file has changed except,
    possibly, the output file of the path that was chosen. *)
Lemma step_cases lib w ev :
  (console (step lib w ev) = console w
   \/ exists line,
        console (step lib w ev) = console w ++ [line]
        /\ (line = completion_message
            \/ String.prefix "Error loading file: " line = true
            \/ String.prefix "Error analyzing file: " line = true))
  /\ (fs (step lib w ev) = fs w
      \/ exists p b,
           ev = ClickLoad p
           /\ fs (step lib w ev)
              = <[OsPath.resolve (cwd w) (output_name (OsPath.basename p)) := b]> (fs w)).
Proof.
  unfold step. destruct (W.idle w) eqn:Hi; [|now split; left].
  destruct ev as [p|].
  - unfold callback, load_file. destruct (String.eqb p "") eqn:Hp; [now split; left|].
    destruct (outcome lib p w) as [e|e|] eqn:Ho.
    + apply outcome_DecodeFailed in Ho.
      rewrite (analyze_file_decode_failure _ _ _ _ Ho). cbn [snd].
      split; [right|left; reflexivity].
      eexists. split; [reflexivity|]. right. left. apply prefix_append.
    + apply outcome_AnalysisFailed in Ho. destruct Ho as (y & sr & w2 & _ & Ha & ->).
      cbn [snd].
      pose proof (analysis_Raise lib p y sr (W.log fn_load w) e w2
                    (idle_alive w Hi) Ha) as (Hc & _).
      pose proof (analysis_Raise_fs lib p y sr (W.log fn_load w) e w2
                    (idle_alive w Hi) Ha) as Hf.
      cbn [console fs cwd W.log W.set_console] in *.
      split.
      * right. eexists. split; [now rewrite Hc|]. right. right.
        apply prefix_append.
      * destruct Hf as [Hf|[b Hf]]; [now left|]. right. exists p, b. auto.
    + apply outcome_Succeeded in Ho. destruct Ho as (y & sr & w2 & _ & Ha & ->).
      cbn [snd]. apply analysis_Ok in Ha.
      destruct Ha as (w1 & f & _ & _ & _ & _ & _ & _ & _ & _ & Hc & Hf & _).
      cbn [console fs cwd W.log] in Hc, Hf.
      split.
      * right. eexists. split; [exact Hc|]. now left.
      * right. eexists p, _. split; [reflexivity|exact Hf].
  - rewrite close_app_alive by now apply idle_alive.
    split; left; reflexivity.
Qed.

(** X1: pressing "Exit" while the window is open destroys the window and
    stops its loop; no file is written, nothing is printed, and no later
    click is dispatched. *)
Theorem exit_closes_without_output lib w :
  W.idle w = true ->
  let w' := step lib w ClickExit in
  fs w' = fs w
  /\ console w' = console w
  /\ tk_alive (root w') = false
  /\ tk_packed (root w') = []
  /\ forall evs, mainloop lib evs w' = w'.
Proof.
  intros Hi w'. subst w'. rewrite step_exit by exact Hi.
  repeat split. intros evs. now apply mainloop_over.
Qed.

Lemma exit_closes_witness :
  W.idle Demo.start = true
  /\ fs (step Demo.good Demo.start ClickExit) = fs Demo.start.
Proof.
  split; [reflexivity|].
  refine (proj1 (exit_closes_without_output Demo.good Demo.start _)).
  reflexivity.
Defined.

Lemma step_analysis_failed lib p w e :
  W.idle w = true -> String.eqb p "" = false ->
  outcome lib p w = AnalysisFailed e ->
  let w' := step lib w (ClickLoad p) in
  console w' = console w ++ ["Error analyzing file: " +:+ exn_msg e]
  /\ W.idle w' = true
  /\ (fs w' = fs w
      \/ exists b,
           fs w' = <[OsPath.resolve (cwd w) (output_name (OsPath.basename p)) := b]> (fs w)).
Proof.
  intros Hi Hp Ho w'. subst w'. rewrite step_load by assumption.
  apply outcome_AnalysisFailed in Ho.
  destruct Ho as (y & sr & w2 & _ & Ha & ->). cbn [snd].
  pose proof (analysis_Raise lib p y sr (W.log fn_load w) e w2
                (idle_alive w Hi) Ha) as (Hc & Hal & Hml).
  pose proof (analysis_Raise_fs lib p y sr (W.log fn_load w) e w2
                (idle_alive w Hi) Ha) as Hf.
  cbn [console root fs cwd W.log W.set_console] in *.
  split; [now rewrite Hc|]. split; [|exact Hf].
  unfold W.idle in *. cbn [root W.set_console]. now rewrite Hal, Hml.
Qed.

Lemma step_succeeded lib p w :
  W.idle w = true -> String.eqb p "" = false ->
  outcome lib p w = Succeeded ->
  let w' := step lib w (ClickLoad p) in
  console w' = console w ++ [completion_message]
  /\ tk_alive (root w') = false
  /\ tk_mainloop (root w') = false
  /\ tk_packed (root w') = [].
Proof.
  intros Hi Hp Ho w'. subst w'. rewrite step_load by assumption.
  apply outcome_Succeeded in Ho.
  destruct Ho as (y & sr & w2 & _ & Ha & ->). cbn [snd].
  apply analysis_Ok in Ha.
  destruct Ha as (w1 & f & _ & _ & _ & _ & _ & _ & _ & _ & Hc & _ & _ & _ & Hr & _).
  rewrite Hr. cbn [console W.log] in Hc. auto.
Qed.

(** X2: from the open window, a click leaves the window open exactly when it
    is neither "Exit" nor a file choice whose analysis runs to its end: a
    cancelled dialog, a failed decoding and a failed analysis all come back
    to the open window. *)
Theorem idle_after_click lib w ev :
  W.idle w = true ->
  W.idle (step lib w ev)
  = match ev with
    | ClickExit => false
    | ClickLoad p =>
        if String.eqb p "" then true
        else match outcome lib p w with
             | Succeeded => false
             | DecodeFailed _ | AnalysisFailed _ => true
             end
    end.
Proof.
  intros Hi. destruct ev as [p|].
  - destruct (String.eqb p "") eqn:Hp.
    + unfold step, callback, load_file. now rewrite Hi, Hp.
    + destruct (outcome lib p w) as [e|e|] eqn:Ho.
      * now rewrite (step_decode_failed _ _ _ _ Hi Hp Ho).
      * exact (proj1 (proj2 (step_analysis_failed _ _ _ _ Hi Hp Ho))).
      * destruct (step_succeeded _ _ _ Hi Hp Ho) as (_ & Ha & _).
        unfold W.idle. now rewrite Ha.
  - now rewrite step_exit.
Qed.

Lemma idle_after_click_witness :
  W.idle Demo.start = true
  /\ W.idle (step Demo.disk_full Demo.start (ClickLoad "/music/song.mp3")) = true.
Proof.
  split; [reflexivity|].
  rewrite (idle_after_click Demo.disk_full Demo.start (ClickLoad "/music/song.mp3"))
    by reflexivity.
  vm_compute. reflexivity.
Defined.

(** X3: whatever is clicked, in whatever order, from the launch on, the
    window is either open with its loop running or destroyed with its loop
    stopped and nothing left packed in it: [quit] and [destroy] never come
    apart. *)
Theorem window_open_or_gone lib files dir evs :
  open_or_gone (mainloop lib evs (launch files dir)).
Proof.
  assert (Hstep : forall w ev, open_or_gone w -> open_or_gone (step lib w ev)).
  { intros w ev [Hi|(Ha & Hm & Hp)].
    - destruct (W.idle (step lib w ev)) eqn:Hi'; [now left|]. right.
      rewrite idle_after_click in Hi' by exact Hi.
      destruct ev as [p|].
      + destruct (String.eqb p "") eqn:Hp; [discriminate|].
        destruct (outcome lib p w) eqn:Ho; try discriminate.
        now destruct (step_succeeded _ _ _ Hi Hp Ho) as (_ & ? & ? & ?).
      + now rewrite step_exit.
    - right. unfold step, W.idle. now rewrite Ha. }
  assert (Hall : forall w, open_or_gone w -> open_or_gone (mainloop lib evs w)).
  { induction evs as [|ev evs IH]; intros w Hw; [exact Hw|].
    apply (IH (step lib w ev)). now apply Hstep. }
  apply Hall. now left.
Qed.

Lemma completions_snoc lines line :
  completions (lines ++ [line])
  = (completions lines + if String.eqb completion_message line then 1 else 0)%nat.
Proof.
  unfold completions. rewrite List.filter_app, length_app. f_equal.
  cbn [List.filter]. now destruct (String.eqb completion_message line).
Qed.

(** X4: over any sequence of clicks from the launch on, the completion
    message is printed at most once, and never while the window is still
    open: one launch completes at most one analysis. *)
Theorem at_most_one_completion lib files dir evs :
  let w := mainloop lib evs (launch files dir) in
  (completions (console w) <= 1)%nat
  /\ (W.idle w = true -> completions (console w) = 0%nat).
Proof.
  set (J := fun w => (W.idle w = true /\ completions (console w) = 0%nat)
                     \/ (W.idle w = false /\ (completions (console w) <= 1)%nat)).
  assert (Hstep : forall w ev, J w -> J (step lib w ev)).
  { intros w ev [[Hi Hc]|[Hi Hc]].
    - destruct ev as [p|].
      + destruct (String.eqb p "") eqn:Hp.
        { left. unfold step, callback, load_file. now rewrite Hi, Hp. }
        destruct (outcome lib p w) as [e|e|] eqn:Ho.
        * left. rewrite (step_decode_failed _ _ _ _ Hi Hp Ho).
          split; [exact Hi|]. cbn [console W.set_console].
          rewrite completions_snoc, Hc. reflexivity.
        * left. destruct (step_analysis_failed _ _ _ _ Hi Hp Ho) as (Hc' & Hi' & _).
          split; [exact Hi'|]. rewrite Hc', completions_snoc, Hc. reflexivity.
        * right. destruct (step_succeeded _ _ _ Hi Hp Ho) as (Hc' & Ha & _).
          split; [unfold W.idle; now rewrite Ha|].
          rewrite Hc', completions_snoc, Hc, String.eqb_refl. lia.
      + right. rewrite step_exit by exact Hi. split; [reflexivity|].
        cbn [console W.set_root]. lia.
    - right. unfold step. rewrite Hi. now split. }
  assert (Hall : forall w, J w -> J (mainloop lib evs w)).
  { induction evs as [|ev evs IH]; intros w Hw; [exact Hw|].
    apply (IH (step lib w ev)). now apply Hstep. }
  intros w. destruct (Hall (launch files dir)) as [[Hi Hc]|[Hi Hc]].
  - left. split; reflexivity.
  - fold w in Hi, Hc. split; [lia|]. intros _. exact Hc.
  - fold w in Hi, Hc. split; [exact Hc|]. congruence.
Qed.

(** X5: [load_file] never lets an exception out: whatever the dialog
    answered and whatever the libraries do, it returns normally. *)
Theorem load_file_never_raises lib answer w :
  (load_file lib answer w).1 = Ok tt.
Proof.
  unfold load_file. destruct (String.eqb answer ""); [reflexivity|].
  destruct (librosa_load lib (fs w) (OsPath.resolve (cwd w) answer))
    as [[y sr]|e] eqn:E.
  - rewrite (analyze_file_decoded _ _ _ _ _ E). unfold try_except.
    now destruct (analysis lib answer y sr _) as [[[]|e] w'].
  - now rewrite (analyze_file_decode_failure _ _ _ _ E).
Qed.

(** X6: a click adds at most one line to the console, and that line is the
    completion message or starts with "Error loading file: " or with "Error
    analyzing file: ". *)
Theorem click_prints_at_most_one_line lib w ev :
  console (step lib w ev) = console w
  \/ exists line,
       console (step lib w ev) = console w ++ [line]
       /\ (line = completion_message
           \/ String.prefix "Error loading file: " line = true
           \/ String.prefix "Error analyzing file: " line = true).
Proof. exact (proj1 (step_cases lib w ev)). Qed.

(** X7: a click changes no file other than the output file of the chosen
    path: every other path, the input file included when it is another
    path, holds after the click what it held before, also when the analysis
    fails half-way. *)
Theorem click_touches_only_the_output_file lib w ev path :
  (forall p, ev = ClickLoad p ->
             path <> OsPath.resolve (cwd w) (output_name (OsPath.basename p))) ->
  fs (step lib w ev) !! path = fs w !! path.
Proof.
  intros Hne. destruct (proj2 (step_cases lib w ev)) as [Hf|(p & b & -> & Hf)].
  - now rewrite Hf.
  - rewrite Hf. apply lookup_insert_ne. intros E. now apply (Hne p).
Qed.

Lemma click_touches_only_witness :
  fs (step Demo.good Demo.start (ClickLoad "/music/song.mp3")) !! "/music/song.mp3"
  = fs Demo.start !! "/music/song.mp3".
Proof.
  apply click_touches_only_the_output_file.
  intros p E. injection E as <-. vm_compute. discriminate.
Defined.

(** X8: when the analysis fails and the saving is not what failed (here:
    saving never fails), no file is written at all: everything before
    [plt.savefig] leaves the files alone. *)
Theorem failed_run_writes_nothing lib p w e :
  W.idle w = true ->
  String.eqb p "" = false ->
  outcome lib p w = AnalysisFailed e ->
  (forall w0 path, raises lib w0 (E_savefig path) = None) ->
  fs (step lib w (ClickLoad p)) = fs w.
Proof.
  intros Hi Hp Ho Hsave. rewrite step_load by assumption.
  apply outcome_AnalysisFailed in Ho.
  destruct Ho as (y & sr & w2 & _ & Ha & ->). cbn [snd fs W.set_console].
  unfold analysis in Ha.
  apply bind_Raise in Ha. destruct Ha as [H|(n & w1 & H1 & H)].
  - apply draw_figure_shell_raise in H. unfold shell in H.
    now injection H as _ Hf _ _ _.
  - apply draw_figure_shell in H1. unfold shell in H1.
    injection H1 as _ Hf _ Hal _.
    unfold save_and_close in H.
    apply bind_Raise in H. destruct H as [H|(u1 & w3 & H2 & H)].
    + unfold plt_savefig in H. destruct (gcf w1).
      * rewrite Hsave in H. discriminate.
      * inversion H. subst. exact Hf.
    + apply plt_savefig_Ok in H2. destruct H2 as (f & Hg & ->).
      rewrite report_and_close_alive in H; [discriminate|].
      cbn [root W.set_fs]. rewrite Hal. cbn [root W.log]. now apply idle_alive.
Qed.

Lemma failed_run_writes_nothing_witness :
  W.idle Demo.start = true
  /\ String.eqb "/music/song.mp3" "" = false
  /\ outcome Demo.no_canvas "/music/song.mp3" Demo.start
     = AnalysisFailed (mkExn "TclError" "no display name")
  /\ fs (step Demo.no_canvas Demo.start (ClickLoad "/music/song.mp3")) = fs Demo.start.
Proof.
  split; [reflexivity|]. split; [reflexivity|]. split; [vm_compute; reflexivity|].
  apply (failed_run_writes_nothing Demo.no_canvas "/music/song.mp3" Demo.start
           (mkExn "TclError" "no display name")).
  - reflexivity.
  - reflexivity.
  - vm_compute; reflexivity.
  - intros w0 path. reflexivity.
Defined.

(** X9: for a positive sample rate and a spectrogram with the 1025 rows the
    frequency axis has, none of the three boolean indexings raises, and the
    bass rows followed by the mid rows followed by the treble rows are the
    spectrogram without its first row: every row but the 0 Hz row goes into
    one bar, once, and the 0 Hz row into none. *)
Theorem band_rows_partition (sr : Z) (S : Matrix) :
  (0 < sr)%Z ->
  length S = 1025%nat ->
  let freqs := Bands.fft_frequencies sr in
  let bass := Np.keep S (Bands.bass_mask freqs) in
  let mid := Np.keep S (Bands.mid_mask freqs) in
  let treble := Np.keep S (Bands.treble_mask freqs) in
  Np.bool_index S (Bands.bass_mask freqs) = Ok bass
  /\ Np.bool_index S (Bands.mid_mask freqs) = Ok mid
  /\ Np.bool_index S (Bands.treble_mask freqs) = Ok treble
  /\ bass ++ mid ++ treble = tail S.
Proof.
  intros Hsr Hlen freqs bass mid treble.
  assert (Hf : length freqs = 1025%nat) by apply BandFacts.length_fft_frequencies.
  split; [|split; [|split]].
  - unfold Np.bool_index.
    now rewrite BandRows.length_bass_mask, Hf, Hlen.
  - unfold Np.bool_index.
    now rewrite BandRows.length_mid_mask, Hf, Hlen.
  - unfold Np.bool_index.
    now rewrite BandRows.length_treble_mask, Hf, Hlen.
  - subst bass mid treble freqs.
    destruct S as [|r S]; [discriminate|]. injection Hlen as Hlen.
    rewrite BandRows.fft_frequencies_cons.
    rewrite BandRows.bass_mask_cons, BandRows.mid_mask_cons,
      BandRows.treble_mask_cons.
    cbn [Np.keep tail].
    change (Num.gtb (inject_Z (Z.of_nat 0 * sr) / inject_Z (Z.of_nat Bands.n_fft)) 0)
      with false.
    change (Num.geb (inject_Z (Z.of_nat 0 * sr) / inject_Z (Z.of_nat Bands.n_fft)) 150)
      with false.
    change (Num.geb (inject_Z (Z.of_nat 0 * sr) / inject_Z (Z.of_nat Bands.n_fft)) 2000)
      with false.
    cbn [andb].
    apply (BandRows.keep_three_bands
             (fun k : nat => (inject_Z (Z.of_nat k * sr)
                              / inject_Z (Z.of_nat Bands.n_fft))%Q)).
    + intros i j Hij. now apply BandRows.bin_rises.
    + exact Hlen.
    + apply NumFacts.ltb_spec.
      change (Num.gtb (inject_Z (Z.of_nat 1 * sr) / inject_Z (Z.of_nat Bands.n_fft)) 0
              = true).
      rewrite BandFacts.bin_positive. apply Z.ltb_lt. lia.
Qed.

Lemma band_rows_partition_witness :
  (0 < 22050)%Z
  /\ length (np_abs Demo.good Demo.spectrum) = 1025%nat
  /\ Np.keep (np_abs Demo.good Demo.spectrum)
       (Bands.bass_mask (Bands.fft_frequencies 22050))
     ++ Np.keep (np_abs Demo.good Demo.spectrum)
          (Bands.mid_mask (Bands.fft_frequencies 22050))
     ++ Np.keep (np_abs Demo.good Demo.spectrum)
          (Bands.treble_mask (Bands.fft_frequencies 22050))
     = tail (np_abs Demo.good Demo.spectrum).
Proof.
  split; [lia|]. split; [vm_compute; reflexivity|].
  refine (proj2 (proj2 (proj2
    (band_rows_partition 22050 (np_abs Demo.good Demo.spectrum) _ _)))).
  - lia.
  - vm_compute; reflexivity.
Defined.

Module BinFacts.
Import Bands.

(** The three masks at bin [k], as comparisons of integers: the bin's
    frequency is [k * sr / 2048]. *)
Lemma nth_bass_mask sr k :
  (k < 1025)%nat ->
  nth k (bass_mask (fft_frequencies sr)) false
  = ((0 <? Z.of_nat k * sr) && (Z.of_nat k * sr <? 150 * 2048))%Z.
Proof.
  intros Hk. unfold bass_mask.
  rewrite BandFacts.nth_band by now rewrite !length_map.
  rewrite !(BandFacts.nth_map_in _ _ _ false 0%Q)
    by now rewrite BandFacts.length_fft_frequencies.
  rewrite BandFacts.nth_fft_frequencies by exact Hk.
  now rewrite BandFacts.bin_positive, (BandRows.bin_ltb sr k 150).
Qed.

Lemma nth_mid_mask sr k :
  (k < 1025)%nat ->
  nth k (mid_mask (fft_frequencies sr)) false
  = (negb (Z.of_nat k * sr <? 150 * 2048) && (Z.of_nat k * sr <? 2000 * 2048))%Z.
Proof.
  intros Hk. unfold mid_mask.
  rewrite BandFacts.nth_band by now rewrite !length_map.
  rewrite !(BandFacts.nth_map_in _ _ _ false 0%Q)
    by now rewrite BandFacts.length_fft_frequencies.
  rewrite BandFacts.nth_fft_frequencies by exact Hk.
  unfold Num.geb.
  now rewrite (BandRows.bin_ltb sr k 150), (BandRows.bin_ltb sr k 2000).
Qed.

Lemma nth_treble_mask sr k :
  (k < 1025)%nat ->
  nth k (treble_mask (fft_frequencies sr)) false
  = negb (Z.of_nat k * sr <? 2000 * 2048)%Z.
Proof.
  intros Hk. unfold treble_mask.
  rewrite (BandFacts.nth_map_in _ _ _ false 0%Q)
    by now rewrite BandFacts.length_fft_frequencies.
  rewrite BandFacts.nth_fft_frequencies by exact Hk.
  unfold Num.geb. now rewrite (BandRows.bin_ltb sr k 2000).
Qed.

(** A selection over the 1025 bins is empty when no bin passes. *)
Lemma keep_nil_bins (S : Matrix) mask :
  length S = 1025%nat ->
  length mask = 1025%nat ->
  Np.bool_index S mask = Ok []
  <-> forall k, (k < 1025)%nat -> nth k mask false = false.
Proof.
  intros HS Hm. unfold Np.bool_index. rewrite Hm, HS, Nat.eqb_refl.
  assert (Hl : length S = length mask) by now rewrite HS, Hm.
  split.
  - intros H k _.
    apply (f_equal (fun r : result Matrix =>
                      match r with Ok x => x | Raise _ => [] end)) in H.
    cbv beta iota in H.
    exact (proj1 (BandRows.keep_nil_iff S _ Hl) H k).
  - intros H. f_equal. apply (BandRows.keep_nil_iff S _ Hl).
    intros k. destruct (Nat.lt_ge_cases k 1025) as [Hk|Hk].
    + now apply H.
    + apply nth_overflow. now rewrite Hm.
Qed.

(** Between 300 Hz and 4096000 Hz some bin falls into [150, 2000). *)
Lemma mid_bin (sr : Z) :
  (300 <= sr < 4096000)%Z ->
  exists k, (k < 1025)%nat
            /\ (150 * 2048 <= Z.of_nat k * sr < 2000 * 2048)%Z.
Proof.
  intros Hsr. exists (Z.to_nat (307199 / sr + 1)).
  assert (Hpos : (0 < sr)%Z) by lia.
  pose proof (Z.div_mod 307199 sr ltac:(lia)) as Hdm.
  pose proof (Z.mod_pos_bound 307199 sr Hpos) as Hmod.
  assert (Hq0 : (0 <= 307199 / sr)%Z) by (apply Z.div_pos; lia).
  assert (Hq : (307199 / sr < 1024)%Z).
  { apply Z.div_lt_upper_bound; [exact Hpos|]. nia. }
  rewrite Z2Nat.id by lia. split; [lia|].
  destruct (Z_lt_dec sr 307200) as [Hs|Hs]; [nia|].
  assert (E : (307199 / sr = 0)%Z) by (apply Z.div_small; lia).
  rewrite E. lia.
Qed.

End BinFacts.

(** X10: which of the three selections can come out without rows.  For a
    positive sample rate and a spectrogram with 1025 rows, [S[mask]] is
    empty for the bass mask exactly from 307200 Hz up, for the mid mask
    exactly below 300 Hz or from 4096000 Hz up, and for the treble mask
    exactly below 4000 Hz.  So none of the three is empty exactly when the
    sample rate is at least 4000 Hz and below 307200 Hz, as it is at the
    22050 Hz that [librosa.load] resamples to when no rate is given. *)
Theorem band_empty_iff (sr : Z) (S : Matrix) :
  (0 < sr)%Z ->
  length S = 1025%nat ->
  let freqs := Bands.fft_frequencies sr in
  let bass := Np.bool_index S (Bands.bass_mask freqs) in
  let mid := Np.bool_index S (Bands.mid_mask freqs) in
  let treble := Np.bool_index S (Bands.treble_mask freqs) in
  (bass = Ok [] <-> (307200 <= sr)%Z)
  /\ (mid = Ok [] <-> (sr < 300 \/ 4096000 <= sr)%Z)
  /\ (treble = Ok [] <-> (sr < 4000)%Z)
  /\ ((bass <> Ok [] /\ mid <> Ok [] /\ treble <> Ok [])
      <-> (4000 <= sr < 307200)%Z).
Proof.
  intros Hsr Hlen. cbv zeta.
  set (bass := Np.bool_index S (Bands.bass_mask (Bands.fft_frequencies sr))).
  set (mid := Np.bool_index S (Bands.mid_mask (Bands.fft_frequencies sr))).
  set (treble := Np.bool_index S (Bands.treble_mask (Bands.fft_frequencies sr))).
  assert (Hf : length (Bands.fft_frequencies sr) = 1025%nat)
    by apply BandFacts.length_fft_frequencies.
  assert (Hb : bass = Ok [] <-> (307200 <= sr)%Z).
  { subst bass. rewrite BinFacts.keep_nil_bins
      by (try exact Hlen; now rewrite BandRows.length_bass_mask).
    split.
    - intros H. specialize (H 1%nat ltac:(lia)).
      rewrite BinFacts.nth_bass_mask in H by lia.
      apply andb_false_iff in H. destruct H as [H|H].
      + apply Z.ltb_ge in H. lia.
      + apply Z.ltb_ge in H. lia.
    - intros H k Hk. rewrite BinFacts.nth_bass_mask by exact Hk.
      apply andb_false_iff. destruct k as [|k].
      + left. apply Z.ltb_ge. lia.
      + right. apply Z.ltb_ge. nia. }
  assert (Hm : mid = Ok [] <-> (sr < 300 \/ 4096000 <= sr)%Z).
  { subst mid. rewrite BinFacts.keep_nil_bins
      by (try exact Hlen; now rewrite BandRows.length_mid_mask).
    split.
    - intros H.
      destruct (Z_lt_dec sr 300) as [H1|H1]; [now left|].
      destruct (Z_le_dec 4096000 sr) as [H2|H2]; [now right|].
      destruct (BinFacts.mid_bin sr ltac:(lia)) as (k & Hk & Hlo & Hhi).
      specialize (H k Hk). rewrite BinFacts.nth_mid_mask in H by exact Hk.
      apply andb_false_iff in H. destruct H as [H|H].
      + apply negb_false_iff, Z.ltb_lt in H. lia.
      + apply Z.ltb_ge in H. lia.
    - intros H k Hk. rewrite BinFacts.nth_mid_mask by exact Hk.
      apply andb_false_iff. destruct H as [H|H].
      + left. apply negb_false_iff, Z.ltb_lt. nia.
      + destruct k as [|k].
        * left. apply negb_false_iff, Z.ltb_lt. lia.
        * right. apply Z.ltb_ge. nia. }
  assert (Ht : treble = Ok [] <-> (sr < 4000)%Z).
  { subst treble. rewrite BinFacts.keep_nil_bins
      by (try exact Hlen; now rewrite BandRows.length_treble_mask).
    split.
    - intros H. specialize (H 1024%nat ltac:(lia)).
      rewrite BinFacts.nth_treble_mask in H by lia.
      apply negb_false_iff, Z.ltb_lt in H. lia.
    - intros H k Hk. rewrite BinFacts.nth_treble_mask by exact Hk.
      apply negb_false_iff, Z.ltb_lt. nia. }
  split; [exact Hb|]. split; [exact Hm|]. split; [exact Ht|].
  split.
  - intros (Nb & Nm & Nt).
    destruct (Z_lt_dec sr 4000) as [H1|H1]; [now apply Ht in H1|].
    destruct (Z_le_dec 307200 sr) as [H2|H2]; [now apply Hb in H2|].
    lia.
  - intros H. split; [|split].
    + intros E. apply Hb in E. lia.
    + intros E. apply Hm in E. lia.
    + intros E. apply Ht in E. lia.
Qed.

Lemma band_empty_witness :
  (0 < 22050)%Z
  /\ length (np_abs Demo.good Demo.spectrum) = 1025%nat
  /\ Np.bool_index (np_abs Demo.good Demo.spectrum)
       (Bands.bass_mask (Bands.fft_frequencies 22050)) <> Ok []
  /\ Np.bool_index (np_abs Demo.good Demo.spectrum)
       (Bands.mid_mask (Bands.fft_frequencies 22050)) <> Ok []
  /\ Np.bool_index (np_abs Demo.good Demo.spectrum)
       (Bands.treble_mask (Bands.fft_frequencies 22050)) <> Ok [].
Proof.
  split; [lia|]. split; [vm_compute; reflexivity|].
  apply (proj2 (proj2 (proj2 (proj2
    (band_empty_iff 22050 (np_abs Demo.good Demo.spectrum) ltac:(lia)
       ltac:(vm_compute; reflexivity)))))).
  lia.
Defined.

(* ===================================================================== *)
(** ** More on names *)
(* ===================================================================== *)

Module CharFacts.
Import OsPath.

Lemma has_sep_char s : has_sep s = has_char sep s.
Proof. induction s as [|a s IH]; [reflexivity|]. simpl. now rewrite IH. Qed.

Lemma rfind_from_absent c s : forall i last,
  has_char c s = false -> rfind_from c s i last = last.
Proof.
  induction s as [|a s IH]; intros i last H; [reflexivity|].
  simpl in *. apply orb_false_iff in H. destruct H as [Ha Hs].
  rewrite Ha. now apply IH.
Qed.

(** [rfind] finds the last occurrence: what follows it has none. *)
Lemma rfind_from_char c s : forall i last,
  (last < i)%Z ->
  let r := rfind_from c s i last in
  (r = last /\ has_char c s = false)
  \/ ((i <= r)%Z
      /\ exists rest, drop (Z.to_nat (r - i)) s = String c rest
                      /\ has_char c rest = false).
Proof.
  induction s as [|a s IH]; intros i last Hlt; simpl.
  - left. auto.
  - destruct (Ascii.eqb a c) eqn:Ea; simpl.
    + apply Ascii.eqb_eq in Ea. subst a.
      destruct (IH (i + 1)%Z i ltac:(lia)) as [[Hr Hs]|(Hr & rest & Hd & Hs)].
      * right. rewrite Hr. split; [lia|]. exists s.
        replace (i - i)%Z with 0%Z by lia. auto.
      * right. split; [lia|]. exists rest. split; [|exact Hs].
        replace (Z.to_nat (rfind_from c s (i + 1) i - i))
          with (S (Z.to_nat (rfind_from c s (i + 1) i - (i + 1)))) by lia.
        exact Hd.
    + destruct (IH (i + 1)%Z last ltac:(lia)) as [[Hr Hs]|(Hr & rest & Hd & Hs)].
      * left. auto.
      * right. split; [lia|]. exists rest. split; [|exact Hs].
        replace (Z.to_nat (rfind_from c s (i + 1) last - i))
          with (S (Z.to_nat (rfind_from c s (i + 1) last - (i + 1)))) by lia.
        exact Hd.
Qed.

Lemma rfind_from_after c d : forall n i last,
  has_char c n = false ->
  rfind_from c (d +:+ String c n) i last = (i + Z.of_nat (String.length d))%Z.
Proof.
  induction d as [|a d IH]; intros n i last Hn.
  - change (rfind_from c (String c n) i last = (i + 0)%Z). simpl.
    rewrite Ascii.eqb_refl, rfind_from_absent by exact Hn. lia.
  - change (rfind_from c (String a (d +:+ String c n)) i last
            = (i + Z.of_nat (S (String.length d)))%Z).
    simpl rfind_from. rewrite IH by exact Hn. lia.
Qed.

Lemma drop_after d c n : drop (S (String.length d)) (d +:+ String c n) = n.
Proof.
  induction d as [|a d IH]; [reflexivity|].
  change (drop (S (String.length d)) (d +:+ String c n) = n). exact IH.
Qed.

Lemma take_empty k s : take (S k) s = "" -> s = "".
Proof. destruct s; [reflexivity|discriminate]. Qed.

End CharFacts.

(** X11: [os.path.basename] undoes the joining of a directory and a name
    without separator, so the output name depends on the file's own name
    only, not on the directory it was picked from. *)
Theorem basename_of_joined (d n : string) :
  has_sep n = false ->
  OsPath.basename (d +:+ "/" +:+ n) = n
  /\ output_name (OsPath.basename (d +:+ "/" +:+ n)) = output_name n.
Proof.
  intros Hn.
  assert (E : OsPath.basename (d +:+ "/" +:+ n) = n).
  { unfold OsPath.basename, OsPath.rfind.
    change (d +:+ "/" +:+ n) with (d +:+ String OsPath.sep n).
    rewrite CharFacts.rfind_from_after by now rewrite <- CharFacts.has_sep_char.
    replace (Z.to_nat (0 + Z.of_nat (String.length d) + 1))
      with (S (String.length d)) by lia.
    apply CharFacts.drop_after. }
  split; [exact E|now rewrite E].
Qed.

Lemma basename_of_joined_witness :
  has_sep "song.mp3" = false
  /\ OsPath.basename ("/music" +:+ "/" +:+ "song.mp3") = "song.mp3".
Proof.
  split; [reflexivity|].
  refine (proj1 (basename_of_joined "/music" "song.mp3" _)). reflexivity.
Defined.

(** X12: what [os.path.splitext] splits off, and the output name replaces
    by ".png", is empty or is a dot followed by characters none of which is
    a dot: only the last extension goes ("a.tar.gz" gives "a.tar.png"); and
    the part that stays is empty only for the empty name, so a name of dots
    and letters such as ".hidden" is kept whole. *)
Theorem splitext_shape (name : string) :
  let stem := (OsPath.splitext name).1 in
  let ext := (OsPath.splitext name).2 in
  (ext = "" \/ exists rest, ext = String "." rest /\ has_char "." rest = false)
  /\ (stem = "" -> name = "").
Proof.
  unfold OsPath.splitext.
  destruct (OsPath.rfind OsPath.sep name <? OsPath.rfind OsPath.extsep name)%Z eqn:Hlt;
    [|now split; [left|]].
  destruct (OsPath.has_non_dot _) eqn:Hnd; [|now split; [left|]].
  cbn [fst snd].
  apply Z.ltb_lt in Hlt.
  assert (Hsep : (-1 <= OsPath.rfind OsPath.sep name)%Z).
  { unfold OsPath.rfind.
    destruct (CharFacts.rfind_from_char OsPath.sep name 0 (-1) ltac:(lia))
      as [[Hr _]|[Hr _]]; lia. }
  split.
  - right. unfold OsPath.rfind in *.
    destruct (CharFacts.rfind_from_char OsPath.extsep name 0 (-1) ltac:(lia))
      as [[Hr _]|(Hr & rest & Hd & Hs)]; [lia|].
    exists rest. rewrite Z.sub_0_r in Hd. auto.
  - intros Hstem.
    destruct (Z.to_nat (OsPath.rfind OsPath.extsep name)) as [|k] eqn:Hk.
    + replace (Z.to_nat (OsPath.rfind OsPath.extsep name
                         - (OsPath.rfind OsPath.sep name + 1))) with 0%nat in Hnd by lia.
      destruct (OsPath.drop _ name); discriminate.
    + now apply CharFacts.take_empty in Hstem.
Qed.

(* ===================================================================== *)
(** ** The order of the library calls *)
(* ===================================================================== *)

Ltac no_call := exists []; split; [apply prefix_nil|now rewrite app_nil_r].

Section Calls.

Lemma calls_ret {A} (a : A) : calls (ret a) [].
Proof. intros w. simpl. now rewrite app_nil_r. Qed.

Lemma calls_lift {A} (r : result A) : calls (lift r) [].
Proof.
  intros w. unfold lift. destruct r.
  - now rewrite app_nil_r.
  - exists []. split; [apply prefix_nil|now rewrite app_nil_r].
Qed.

Lemma calls_librosa {A} fn (r : result A) : calls (librosa fn r) [fn].
Proof.
  intros w. unfold librosa. destruct r; [reflexivity|].
  exists [fn]. split; reflexivity.
Qed.

Lemma calls_bind {A B} (m : M A) (k : A -> M B) L1 L2 L :
  calls m L1 -> (forall a, calls (k a) L2) -> L1 ++ L2 = L ->
  calls (m ≫= k) L.
Proof.
  intros Hm Hk <- w. unfold mbind, M_bind, bind.
  specialize (Hm w). destruct (m w) as [[a|e] w1].
  - specialize (Hk a w1). destruct (k a w1) as [[b|e] w2].
    + now rewrite Hk, Hm, app_assoc.
    + destruct Hk as (l & Hl & Ht). exists (L1 ++ l).
      split; [now apply prefix_app|]. now rewrite Ht, Hm, app_assoc.
  - destruct Hm as (l & Hl & Ht). exists l.
    split; [now apply prefix_app_r|exact Ht].
Qed.

Lemma calls_for_each {A} (l : list A) (body : A -> M unit) :
  (forall x, calls (body x) []) -> calls (for_each l body) [].
Proof.
  intros Hb. induction l as [|x l IH]; simpl.
  - apply calls_ret.
  - eapply calls_bind; [apply Hb|intros _; exact IH|reflexivity].
Qed.

Lemma calls_modify f :
  (forall w, trace (f w) = trace w) -> calls (modify f) [].
Proof. intros Hf w. simpl. now rewrite Hf, app_nil_r. Qed.

Lemma calls_ext lib c eff :
  (forall w, trace (eff w) = trace w) -> calls (ext lib c eff) [].
Proof.
  intros Hf w. unfold ext. destruct (raises lib w c).
  - exists []. split; [apply prefix_nil|now rewrite app_nil_r].
  - now rewrite Hf, app_nil_r.
Qed.

Ltac by_ext :=
  lazymatch goal with
  | |- context [ext ?lib ?c ?eff ?w] =>
      exact (calls_ext lib c eff (fun _ => eq_refl) w)
  end.

Lemma calls_need_root : calls need_root [].
Proof.
  intros w. unfold need_root. destruct (tk_alive (root w)).
  - now rewrite app_nil_r.
  - exists []. split; [apply prefix_nil|now rewrite app_nil_r].
Qed.

Lemma calls_ax_call lib i j c : calls (ax_call lib i j c) [].
Proof.
  intros w. unfold ax_call. destruct (gcf w) as [f|]; [|no_call].
  destruct (Fig.in_grid f i j); [|no_call].
  by_ext.
Qed.

Lemma calls_fig_call lib c : calls (fig_call lib c) [].
Proof.
  intros w. unfold fig_call. destruct (gcf w) as [f|]; [|no_call].
  by_ext.
Qed.

Lemma calls_subplots lib nrows ncols size color :
  calls (plt_subplots lib nrows ncols size color) [].
Proof.
  intros w. unfold plt_subplots.
  by_ext.
Qed.

Lemma calls_style_use lib s : calls (plt_style_use lib s) [].
Proof. now apply calls_ext. Qed.

Lemma calls_ax_flat : calls ax_flat [].
Proof.
  intros w. unfold ax_flat. destruct (gcf w); [|no_call].
  now rewrite app_nil_r.
Qed.

Lemma calls_canvas_new lib : calls (canvas_new lib) [].
Proof.
  intros w. unfold canvas_new. destruct (gcf w) as [f|]; [|no_call].
  revert w. eapply calls_bind; [apply calls_need_root| |reflexivity]. intros _.
  eapply calls_bind; [now apply calls_ext| |reflexivity]. intros _.
  apply calls_ret.
Qed.

Lemma calls_canvas_draw lib n : calls (canvas_draw lib n) [].
Proof.
  eapply calls_bind; [apply calls_need_root| |reflexivity]. intros _.
  now apply calls_ext.
Qed.

Lemma calls_canvas_pack lib n : calls (canvas_pack lib n) [].
Proof.
  eapply calls_bind; [apply calls_need_root| |reflexivity]. intros _.
  now apply calls_ext.
Qed.

Lemma calls_savefig lib name : calls (plt_savefig lib name) [].
Proof.
  intros w. unfold plt_savefig. destruct (gcf w) as [f|]; [|no_call].
  destruct (raises lib w _).
  - exists []. split; [apply prefix_nil|].
    destruct (savefig_partial lib w _); now rewrite app_nil_r.
  - cbn [trace W.set_fs]. now rewrite app_nil_r.
Qed.

Lemma calls_close_app : calls close_app [].
Proof.
  unfold close_app, root_quit, root_destroy.
  eapply calls_bind.
  - eapply calls_bind; [apply calls_need_root| |reflexivity]. intros _.
    now apply calls_modify.
  - intros _. eapply calls_bind; [apply calls_need_root| |reflexivity].
    intros _. now apply calls_modify.
  - reflexivity.
Qed.

End Calls.

Ltac calls_auto :=
  cbv beta;
  lazymatch goal with
  | |- calls (_ ≫= _) _ =>
      eapply calls_bind; [calls_auto | intros; calls_auto | reflexivity]
  | |- calls (let '(_, _) := ?p in _) _ => destruct p; calls_auto
  | |- calls (for_each _ _) _ => apply calls_for_each; intros; calls_auto
  | |- calls (ret _) _ => apply calls_ret
  | |- calls (lift _) _ => apply calls_lift
  | |- calls (librosa _ _) _ => apply calls_librosa
  | |- calls (ax_call _ _ _ _) _ => apply calls_ax_call
  | |- calls (fig_call _ _) _ => apply calls_fig_call
  | |- calls (plt_subplots _ _ _ _ _) _ => apply calls_subplots
  | |- calls (plt_style_use _ _) _ => apply calls_style_use
  | |- calls ax_flat _ => apply calls_ax_flat
  | |- calls (canvas_new _) _ => apply calls_canvas_new
  | |- calls (canvas_draw _ _) _ => apply calls_canvas_draw
  | |- calls (canvas_pack _ _) _ => apply calls_canvas_pack
  | |- calls (plt_savefig _ _) _ => apply calls_savefig
  | |- calls close_app _ => apply calls_close_app
  | |- calls (print _) _ => now apply calls_modify
  end.

Lemma calls_draw_figure lib p y sr :
  calls (draw_figure lib p y sr) calls_of_a_run.
Proof.
  unfold draw_figure, create_figure, plot_waveform, plot_spectrogram,
    plot_tempo, plot_mfcc, plot_chroma, plot_zcr, plot_onset,
    plot_frequency_balance, plot_timbre, display_in_gui, fix_labels,
    style_axes, clear_xlabels, label_bar, band_level, ax_bar,
    waveshow, specshow, white_title, white_xlabel, white_ylabel.
  calls_auto.
Qed.

Lemma calls_analysis lib p y sr :
  calls (analysis lib p y sr) calls_of_a_run.
Proof.
  unfold analysis, save_and_close.
  eapply calls_bind; [apply calls_draw_figure| |apply app_nil_r].
  intros n. calls_auto.
Qed.

(** X13: the library is called in one fixed order.  Whatever is clicked and
    however the click ends, the calls it made are a first part of: load,
    then the nineteen calls of a complete run; after the call that failed,
    none follows. *)
Theorem calls_in_order lib w ev :
  exists l,
    l `prefix_of` (fn_load :: calls_of_a_run)
    /\ trace (step lib w ev) = trace w ++ l.
Proof.
  assert (Hnone : exists l, l `prefix_of` (fn_load :: calls_of_a_run)
                            /\ trace w = trace w ++ l).
  { exists []. split; [apply prefix_nil|now rewrite app_nil_r]. }
  unfold step. destruct (W.idle w) eqn:Hi; [|exact Hnone].
  destruct ev as [p|].
  - unfold callback, load_file. destruct (String.eqb p ""); [exact Hnone|].
    destruct (librosa_load lib (fs w) (OsPath.resolve (cwd w) p))
      as [[y sr]|e] eqn:E.
    + rewrite (analyze_file_decoded _ _ _ _ _ E). unfold try_except.
      pose proof (calls_analysis lib p y sr (W.log fn_load w)) as H.
      destruct (analysis lib p y sr (W.log fn_load w)) as [[u|e] w2].
      * exists (fn_load :: calls_of_a_run). split; [reflexivity|].
        cbn [snd]. rewrite H. cbn [trace W.log]. now rewrite <- app_assoc.
      * destruct H as (l & Hl & Ht). exists (fn_load :: l).
        split; [now apply prefix_cons|].
        cbn [snd print modify trace W.set_console]. rewrite Ht.
        cbn [trace W.log]. now rewrite <- app_assoc.
    + rewrite (analyze_file_decode_failure _ _ _ _ E). exists [fn_load].
      split; [apply prefix_cons, prefix_nil|reflexivity].
  - rewrite close_app_alive by now apply idle_alive. exact Hnone.
Qed.

(* ===================================================================== *)
(** ** Figures stay open *)
(* ===================================================================== *)

Lemma nfc_refl w : no_figure_closed w w.
Proof. split; [lia|reflexivity]. Qed.

Lemma nfc_trans w1 w2 w3 :
  no_figure_closed w1 w2 -> no_figure_closed w2 w3 -> no_figure_closed w1 w3.
Proof. intros [H1 S1] [H2 S2]. split; [lia|now transitivity (old_figs w2)]. Qed.

(** Only pyplot's state counts. *)
Lemma nfc_same w w' :
  gcf w' = gcf w -> old_figs w' = old_figs w -> no_figure_closed w w'.
Proof.
  intros Hg Ho. split; [unfold W.n_figs; rewrite Hg, Ho; lia|now rewrite Ho].
Qed.

Section LeavesFigures.

Lemma lf_ret {A} (a : A) : leaves_figures (ret a).
Proof. intros w. apply nfc_refl. Qed.

Lemma lf_lift {A} (r : result A) : leaves_figures (lift r).
Proof. intros w. apply nfc_refl. Qed.

Lemma lf_librosa {A} fn (r : result A) : leaves_figures (librosa fn r).
Proof. intros w. now apply nfc_same. Qed.

Lemma lf_bind {A B} (m : M A) (k : A -> M B) :
  leaves_figures m -> (forall a, leaves_figures (k a)) ->
  leaves_figures (m ≫= k).
Proof.
  intros Hm Hk w. unfold mbind, M_bind, bind.
  specialize (Hm w). destruct (m w) as [[a|e] w1]; cbn [snd] in *.
  - eapply nfc_trans; [exact Hm|apply Hk].
  - exact Hm.
Qed.

Lemma lf_for_each {A} (l : list A) (body : A -> M unit) :
  (forall x, leaves_figures (body x)) -> leaves_figures (for_each l body).
Proof.
  intros Hb. induction l as [|x l IH]; simpl.
  - intros w. apply nfc_refl.
  - apply (lf_bind (body x) (fun _ => for_each l body)); [apply Hb|intros _; exact IH].
Qed.

Lemma lf_modify f :
  (forall w, no_figure_closed w (f w)) -> leaves_figures (modify f).
Proof. intros Hf w. apply Hf. Qed.

Lemma lf_ext lib c eff :
  (forall w, no_figure_closed w (eff w)) -> leaves_figures (ext lib c eff).
Proof.
  intros Hf w. unfold ext. destruct (raises lib w c); cbn [snd].
  - apply nfc_refl.
  - apply Hf.
Qed.

Lemma lf_need_root : leaves_figures need_root.
Proof. intros w. unfold need_root. destruct (tk_alive (root w)); apply nfc_refl. Qed.

(** A call on the current figure changes it in place. *)
Lemma nfc_set_gcf w f f' : gcf w = Some f -> no_figure_closed w (W.set_gcf f' w).
Proof.
  intros Hg. split; [|reflexivity].
  unfold W.n_figs. cbn [gcf old_figs W.set_gcf]. rewrite Hg. lia.
Qed.

Lemma lf_ax_call lib i j c : leaves_figures (ax_call lib i j c).
Proof.
  intros w. unfold ax_call. destruct (gcf w) as [f|] eqn:Hg; [|apply nfc_refl].
  destruct (Fig.in_grid f i j); [|apply nfc_refl].
  unfold ext. destruct (raises lib w _); cbn [snd]; [apply nfc_refl|].
  now apply (nfc_set_gcf w f).
Qed.

Lemma lf_fig_call lib c : leaves_figures (fig_call lib c).
Proof.
  intros w. unfold fig_call. destruct (gcf w) as [f|] eqn:Hg; [|apply nfc_refl].
  unfold ext. destruct (raises lib w _); cbn [snd]; [apply nfc_refl|].
  now apply (nfc_set_gcf w f).
Qed.

(** A new figure pushes the current one to the others; it stays. *)
Lemma lf_subplots lib nrows ncols size color :
  leaves_figures (plt_subplots lib nrows ncols size color).
Proof.
  intros w. unfold plt_subplots, ext.
  destruct (raises lib w _); cbn [snd]; [apply nfc_refl|].
  unfold no_figure_closed, W.n_figs. cbn [gcf old_figs W.push_fig].
  destruct (gcf w); cbn [length]; split; try lia.
  - now apply suffix_cons_r.
  - reflexivity.
Qed.

Lemma lf_style_use lib s : leaves_figures (plt_style_use lib s).
Proof. apply lf_ext. intros w. now apply nfc_same. Qed.

Lemma lf_ax_flat : leaves_figures ax_flat.
Proof. intros w. unfold ax_flat. destruct (gcf w); apply nfc_refl. Qed.

Lemma lf_canvas_new lib : leaves_figures (canvas_new lib).
Proof.
  intros w. unfold canvas_new. destruct (gcf w) as [f|]; [|apply nfc_refl].
  refine (lf_bind need_root _ lf_need_root _ w). intros _.
  eapply (lf_bind (ext lib _ _)); [|intros n; apply lf_ret].
  apply lf_ext. intros w'. apply nfc_refl.
Qed.

Lemma lf_canvas_draw lib n : leaves_figures (canvas_draw lib n).
Proof.
  eapply (lf_bind need_root); [apply lf_need_root|intros _].
  apply lf_ext. intros w. apply nfc_refl.
Qed.

Lemma lf_canvas_pack lib n : leaves_figures (canvas_pack lib n).
Proof.
  eapply (lf_bind need_root); [apply lf_need_root|intros _].
  apply lf_ext. intros w. now apply nfc_same.
Qed.

Lemma lf_savefig lib name : leaves_figures (plt_savefig lib name).
Proof.
  intros w. unfold plt_savefig. destruct (gcf w) as [f|]; [|apply nfc_refl].
  destruct (raises lib w _); cbn [snd].
  - destruct (savefig_partial lib w _); [now apply nfc_same|apply nfc_refl].
  - now apply nfc_same.
Qed.

Lemma lf_print s : leaves_figures (print s).
Proof. apply lf_modify. intros w. now apply nfc_same. Qed.

Lemma lf_close_app : leaves_figures close_app.
Proof.
  unfold close_app, root_quit, root_destroy.
  eapply (lf_bind (_ ≫= _)); [|intros _];
    (eapply (lf_bind need_root); [apply lf_need_root|intros _]);
    apply lf_modify; intros w; now apply nfc_same.
Qed.

End LeavesFigures.

Ltac lf_auto :=
  cbv beta;
  lazymatch goal with
  | |- leaves_figures (?m ≫= ?k) =>
      apply (lf_bind m k); [lf_auto | intros; lf_auto]
  | |- leaves_figures (let '(_, _) := ?p in _) =>
      destruct p; lf_auto
  | |- leaves_figures (for_each _ _) =>
      apply lf_for_each; intros; lf_auto
  | |- leaves_figures (ret _) => apply lf_ret
  | |- leaves_figures (lift _) => apply lf_lift
  | |- leaves_figures (librosa _ _) => apply lf_librosa
  | |- leaves_figures (ax_call _ _ _ _) => apply lf_ax_call
  | |- leaves_figures (fig_call _ _) => apply lf_fig_call
  | |- leaves_figures (plt_subplots _ _ _ _ _) => apply lf_subplots
  | |- leaves_figures (plt_style_use _ _) => apply lf_style_use
  | |- leaves_figures ax_flat => apply lf_ax_flat
  | |- leaves_figures (canvas_new _) => apply lf_canvas_new
  | |- leaves_figures (canvas_draw _ _) => apply lf_canvas_draw
  | |- leaves_figures (canvas_pack _ _) => apply lf_canvas_pack
  | |- leaves_figures (plt_savefig _ _) => apply lf_savefig
  | |- leaves_figures (print _) => apply lf_print
  | |- leaves_figures close_app => apply lf_close_app
  end.

Lemma lf_analysis lib p y sr : leaves_figures (analysis lib p y sr).
Proof.
  unfold analysis, save_and_close, draw_figure, create_figure, plot_waveform,
    plot_spectrogram, plot_tempo, plot_mfcc, plot_chroma, plot_zcr, plot_onset,
    plot_frequency_balance, plot_timbre, display_in_gui, fix_labels,
    style_axes, clear_xlabels, label_bar, band_level, ax_bar,
    waveshow, specshow, white_title, white_xlabel, white_ylabel.
  lf_auto.
Qed.

Lemma lf_step lib w ev : no_figure_closed w (step lib w ev).
Proof.
  unfold step. destruct (W.idle w); [|apply nfc_refl].
  destruct ev as [p|]; [|exact (lf_close_app w)].
  unfold callback, load_file. destruct (String.eqb p ""); [apply nfc_refl|].
  destruct (librosa_load lib (fs w) (OsPath.resolve (cwd w) p))
    as [[y sr]|e] eqn:E.
  - rewrite (analyze_file_decoded _ _ _ _ _ E). unfold try_except.
    pose proof (lf_analysis lib p y sr (W.log fn_load w)) as H.
    destruct (analysis lib p y sr (W.log fn_load w)) as [[u|e] w2]; cbn [snd] in *.
    + eapply nfc_trans; [|exact H]. now apply nfc_same.
    + eapply nfc_trans; [|eapply nfc_trans; [exact H|]]; now apply nfc_same.
  - rewrite (analyze_file_decode_failure _ _ _ _ E). now apply nfc_same.
Qed.

(** X14: no figure is ever closed.  Over any sequence of clicks the number
    of figures pyplot holds does not go down, and every figure that was no
    longer the current one is still held: the program has no [plt.close],
    so what [plt.subplots] created stays, also when the analysis failed. *)
Theorem figures_are_never_closed lib evs w :
  no_figure_closed w (mainloop lib evs w).
Proof.
  revert w. induction evs as [|ev evs IH]; intros w; [apply nfc_refl|].
  eapply nfc_trans; [apply (lf_step lib w ev)|apply IH].
Qed.
